(** * VotingPlugin-Presets: the preset generator and the index builder

    A shallow embedding of the two scripts of the repository,
    [tools/generate-preset-from-issue.mjs] (form parser and preset
    generator) and [tools/build-index.mjs] (index builder), and the
    properties of them that the specification states.

    Conventions of the embedding.
    - A JavaScript string is a [string]: a sequence of code units, each
      an [ascii] read as a code unit in U+0000..U+00FF.  Whitespace,
      case mapping, digits and line terminators are those of ECMAScript
      on that range.
    - The file system below the repository root is a tree of files and
      directories, without links; a path is the list of its segments
      and is written with [/], as on POSIX.
    - [JSON.parse], [String.prototype.localeCompare] and the clock are
      inputs of the index builder; [JSON.stringify] is written out. *)

From Stdlib Require Import Ascii String List ZArith NArith Bool Lia.
From stdpp Require Import base option list gmap strings sorting.

Set Warnings "-register-all".
Local Open Scope string_scope.
Local Open Scope list_scope.

(** ** Strings as ECMAScript sees them *)

Module Js.

Definition code (c : ascii) : N := N_of_ascii c.

(** WhiteSpace and LineTerminator code points below U+0100: what
    [trim] strips and what [\s] matches. *)
Definition isWhiteSpace (c : ascii) : bool :=
  match code c with
  | 9 | 10 | 11 | 12 | 13 | 32 | 160 => true
  | _ => false
  end%N.

(** What [.] does not match. *)
Definition isLineTerminator (c : ascii) : bool :=
  match code c with
  | 10 | 13 => true
  | _ => false
  end%N.

(** [\d] *)
Definition isDigit (c : ascii) : bool :=
  ((48 <=? code c) && (code c <=? 57))%N.

Definition lowerChar (c : ascii) : ascii :=
  let n := code c in
  if ((65 <=? n) && (n <=? 90) || (192 <=? n) && (n <=? 214)
      || (216 <=? n) && (n <=? 222))%N
  then ascii_of_N (n + 32) else c.

Fixpoint toLowerCase (s : string) : string :=
  match s with
  | "" => ""
  | String c r => String (lowerChar c) (toLowerCase r)
  end.

Definition isEmpty (s : string) : bool :=
  match s with "" => true | _ => false end.

Fixpoint trimStart (s : string) : string :=
  match s with
  | "" => ""
  | String c r => if isWhiteSpace c then trimStart r else s
  end.

Fixpoint trimEnd (s : string) : string :=
  match s with
  | "" => ""
  | String c r =>
      let r' := trimEnd r in
      if isWhiteSpace c && isEmpty r' then "" else String c r'
  end.

Definition trim (s : string) : string := trimEnd (trimStart s).

(** [s.startsWith(p)] *)
Fixpoint startsWith (s p : string) : bool :=
  match p, s with
  | "", _ => true
  | String a p', String b s' => if ascii_dec a b then startsWith s' p' else false
  | String _ _, "" => false
  end.

(** [s.includes(sub)] *)
Fixpoint includes (s sub : string) : bool :=
  startsWith s sub ||
  match s with
  | "" => false
  | String _ r => includes r sub
  end.

(** [s.substring(n)] *)
Fixpoint drop (n : nat) (s : string) : string :=
  match n, s with
  | O, _ => s
  | S n', String _ r => drop n' r
  | S _, "" => ""
  end.

(** [s.endsWith(suf)] *)
Definition endsWith (s suf : string) : bool :=
  (String.length suf <=? String.length s)%nat
  && String.eqb (drop (String.length s - String.length suf) s) suf.

(** [s.replaceAll(a, b)] for one-character [a] and [b]. *)
Fixpoint replaceAll (a b : ascii) (s : string) : string :=
  match s with
  | "" => ""
  | String c r => String (if ascii_dec c a then b else c) (replaceAll a b r)
  end.

(** [s.split(sep)] for a one-character separator: never the empty list. *)
Fixpoint split (sep : ascii) (s : string) : list string :=
  match s with
  | "" => [""]
  | String c r =>
      if ascii_dec c sep then "" :: split sep r
      else match split sep r with
           | [] => [String c ""]
           | x :: xs => String c x :: xs
           end
  end.

(** [a.join(sep)] *)
Fixpoint join (sep : string) (l : list string) : string :=
  match l with
  | [] => ""
  | [x] => x
  | x :: r => x +:+ sep +:+ join sep r
  end.

(** [x || ""] on a value that is a string or [undefined]. *)
Definition orEmpty (x : option string) : string := default "" x.

(** Truthiness of a value that is a string or [undefined]. *)
Definition truthy (x : option string) : bool :=
  match x with Some s => negb (isEmpty s) | None => false end.

(** Code-unit order, the order of [<] on strings and of the default
    [Array.prototype.sort]. *)
Fixpoint ltb (a b : string) : bool :=
  match a, b with
  | _, "" => false
  | "", String _ _ => true
  | String x a', String y b' =>
      if (code x <? code y)%N then true
      else if (code y <? code x)%N then false
      else ltb a' b'
  end.

(** [Array.prototype.sort] is stable; with a consistent comparator its
    result is the one stable sorted arrangement, which insertion from
    the right computes.  [gt a b] reads [comparefn(a, b) > 0]. *)
Section Sort.
Context {A : Type} (gt : A -> A -> bool).

Fixpoint insert_sorted (x : A) (l : list A) : list A :=
  match l with
  | [] => [x]
  | y :: r => if gt x y then y :: insert_sorted x r else x :: l
  end.

Fixpoint sort (l : list A) : list A :=
  match l with
  | [] => []
  | x :: r => insert_sorted x (sort r)
  end.
End Sort.

(** [a.indexOf(d)] as an option: [None] is -1. *)
Fixpoint indexOf (a : list string) (d : string) : option nat :=
  match a with
  | [] => None
  | x :: r => if String.eqb x d then Some O else S <$> indexOf r d
  end.

(** [a.filter((d, i, a) => a.indexOf(d) === i)] *)
Fixpoint filter_first_from (a : list string) (i : nat) (l : list string)
  : list string :=
  match l with
  | [] => []
  | d :: r =>
      if decide (indexOf a d = Some i)
      then d :: filter_first_from a (S i) r
      else filter_first_from a (S i) r
  end.

Definition dedupe (a : list string) : list string := filter_first_from a 0 a.

End Js.

(** ** JSON values *)

Module Json.

(** A number is kept as the text [Number::toString] gives for it. *)
Inductive json : Type :=
  | JNull
  | JBool (b : bool)
  | JNum (lit : string)
  | JStr (s : string)
  | JArr (items : list json)
  | JObj (props : list (string * json)).

(** Own property [k] of an object whose properties are [props]. *)
Fixpoint prop (k : string) (props : list (string * json)) : option json :=
  match props with
  | [] => None
  | (k', v) :: r => if String.eqb k' k then Some v else prop k r
  end.

(** [v?.k]; [None] is [undefined].  None of the property names the
    scripts read from a parsed document ([id], [display], [name],
    [description], [keywords], [domains], [updatedAt], [verified]) is
    inherited by a JSON value; [match] is inherited by strings only, as
    a function, on which [domains] and [keywords] are undefined again. *)
Definition get (v : option json) (k : string) : option json :=
  match v with
  | Some (JObj props) => prop k props
  | _ => None
  end.

(** [typeof v === "string"] *)
Definition asString (v : option json) : option string :=
  match v with
  | Some (JStr s) => Some s
  | _ => None
  end.

Definition nl : string := String "010"%char "".
Definition dquote : string := String "034"%char "".
Definition backslash : string := String "092"%char "".

Definition hexDigit (n : N) : ascii :=
  if (n <? 10)%N then ascii_of_N (48 + n) else ascii_of_N (87 + n).

(** QuoteJSONString, one code unit. *)
Definition quoteChar (c : ascii) : string :=
  match Js.code c with
  | 8 => backslash +:+ "b"
  | 9 => backslash +:+ "t"
  | 10 => backslash +:+ "n"
  | 12 => backslash +:+ "f"
  | 13 => backslash +:+ "r"
  | 34 => backslash +:+ dquote
  | 92 => backslash +:+ backslash
  | n =>
      if (n <? 32)%N
      then backslash +:+ "u00" +:+
           String (hexDigit (n / 16)) (String (hexDigit (n mod 16)) "")
      else String c ""
  end%N.

Fixpoint quoteBody (s : string) : string :=
  match s with
  | "" => ""
  | String c r => quoteChar c +:+ quoteBody r
  end.

Definition quote (s : string) : string := dquote +:+ quoteBody s +:+ dquote.

Definition gap : string := "  ".

(** SerializeJSONProperty with a gap of two spaces; [props] lists the
    properties in the order the object enumerates them. *)
Fixpoint serialize (indent : string) (v : json) : string :=
  match v with
  | JNull => "null"
  | JBool true => "true"
  | JBool false => "false"
  | JNum lit => lit
  | JStr s => quote s
  | JArr [] => "[]"
  | JArr items =>
      let inner := indent +:+ gap in
      "[" +:+ nl +:+ inner +:+
      Js.join ("," +:+ nl +:+ inner) (map (serialize inner) items) +:+
      nl +:+ indent +:+ "]"
  | JObj [] => "{}"
  | JObj props =>
      let inner := indent +:+ gap in
      "{" +:+ nl +:+ inner +:+
      Js.join ("," +:+ nl +:+ inner)
        (map (fun kv => quote (fst kv) +:+ ": " +:+ serialize inner (snd kv)) props) +:+
      nl +:+ indent +:+ "}"
  end.

(** [JSON.stringify(v, null, 2)] *)
Definition stringify (v : json) : string := serialize "" v.

End Json.

(** ** Outcomes and the file system *)

Inductive error : Type :=
  | Error (msg : string)        (* [throw new Error(msg)] of a script *)
  | SystemError (code : string) (* raised by [node:fs] *)
  | SyntaxError                 (* raised by [JSON.parse] *)
  | CommandFailed (cmd : string) (* raised by [execSync] *)
  | Exit (status : Z).          (* [process.exit(status)] *)

Inductive outcome (A : Type) : Type :=
  | Ok (a : A)
  | Throw (e : error).
Arguments Ok {A} a.
Arguments Throw {A} e.

#[global] Instance outcome_bind : MBind outcome := fun A B f x =>
  match x with
  | Ok a => f a
  | Throw e => Throw e
  end.

Module Fs.

Inductive node : Type :=
  | File (content : string)
  | Dir (entries : list (string * node)).

(** The entries of a directory, in the order [readdirSync] lists them. *)
Abbreviation tree := (list (string * node)).

(** A path below the repository root, as its segments. *)
Abbreviation path := (list string).

Fixpoint entry (name : string) (d : tree) : option node :=
  match d with
  | [] => None
  | (k, n) :: r => if String.eqb k name then Some n else entry name r
  end.

Fixpoint setEntry (name : string) (n : node) (d : tree) : tree :=
  match d with
  | [] => [(name, n)]
  | (k, v) :: r =>
      if String.eqb k name then (name, n) :: r else (k, v) :: setEntry name n r
  end.

Fixpoint lookup (p : path) (d : tree) : option node :=
  match p with
  | [] => Some (Dir d)
  | s :: p' =>
      match p', entry s d with
      | [], o => o
      | _, Some (Dir e) => lookup p' e
      | _, _ => None
      end
  end.

(** [exists(p)]: [accessSync] with [F_OK] succeeds. *)
Definition exists_ (p : path) (d : tree) : bool :=
  match lookup p d with Some _ => true | None => false end.

Definition readFileSync (p : path) (d : tree) : outcome string :=
  match lookup p d with
  | Some (File c) => Ok c
  | Some (Dir _) => Throw (SystemError "EISDIR")
  | None => Throw (SystemError "ENOENT")
  end.

(** [mkdirSync(p, { recursive: true })] *)
Fixpoint mkdirp (p : path) (d : tree) : outcome tree :=
  match p with
  | [] => Ok d
  | s :: p' =>
      match entry s d with
      | None => sub ← mkdirp p' []; Ok (setEntry s (Dir sub) d)
      | Some (Dir e) => sub ← mkdirp p' e; Ok (setEntry s (Dir sub) d)
      | Some (File _) =>
          Throw (SystemError (match p' with [] => "EEXIST" | _ => "ENOTDIR" end))
      end
  end.

(** [writeFileSync(p, content, "utf8")]: creates or replaces the file. *)
Fixpoint writeFileSync (p : path) (content : string) (d : tree) : outcome tree :=
  match p with
  | [] => Throw (SystemError "EISDIR")
  | s :: p' =>
      match p', entry s d with
      | [], Some (Dir _) => Throw (SystemError "EISDIR")
      | [], _ => Ok (setEntry s (File content) d)
      | _, Some (Dir e) =>
          sub ← writeFileSync p' content e; Ok (setEntry s (Dir sub) d)
      | _, Some (File _) => Throw (SystemError "ENOTDIR")
      | _, None => Throw (SystemError "ENOENT")
      end
  end.

(** [path.join] of the root with [parts]: the parts are cut at [/] and
    empty segments vanish.  No part the scripts join has a [.] or [..]
    segment. *)
Definition segments (s : string) : path :=
  filter (fun x => x <> "") (Js.split "/"%char s).

Definition pathJoin (parts : list string) : path :=
  flat_map segments parts.

(** [path.dirname] *)
Definition dirname (p : path) : path := removelast p.

(** [path.basename] *)
Definition basename (p : path) : string := List.last p "".

(** A path as text, relative to the root. *)
Definition render (p : path) : string := Js.join "/" p.

End Fs.

(** ** The index builder, [tools/build-index.mjs] *)

Module IndexBuilder.
Import Js Json Fs.

Record entry : Type := {
  id : string;
  category : string;
  name : string;
  description : string;
  keywords : list string;
  domains : list string;
  metaPath : string;
  updatedAt : option string;   (* [None] is [null] *)
  verified : bool
}.

(** One directory entry of [findFiles]: [full] is [path.join(dir, ent.name)]. *)
Fixpoint walk (match_ : string -> bool) (full : path) (name : string) (n : node)
  : list path :=
  match n with
  | Dir sub =>
      (fix each (es : tree) : list path :=
         match es with
         | [] => []
         | (nm, child) :: r => walk match_ (full ++ [nm]) nm child ++ each r
         end) sub
  | File _ => if match_ name then [full] else []
  end.

(** The loop of [findFiles] over the entries [es] of [dir]. *)
Definition findFilesIn (match_ : string -> bool) (dir : path) (es : tree)
  : list path :=
  flat_map (fun e => walk match_ (dir ++ [fst e]) (fst e) (snd e)) es.

(** [findFiles(dir, match)]: [readdirSync] fails on what is no directory. *)
Definition findFiles (dir : path) (match_ : string -> bool) (fs : tree)
  : outcome (list path) :=
  match lookup dir fs with
  | Some (Dir es) => Ok (findFilesIn match_ dir es)
  | Some (File _) => Throw (SystemError "ENOTDIR")
  | None => Throw (SystemError "ENOENT")
  end.

(** [.filter((d) => typeof d === "string" && d.trim().length > 0)] *)
Definition nonBlankStrings (items : list json) : list string :=
  flat_map (fun v =>
    match v with
    | JStr d => if isEmpty (trim d) then [] else [d]
    | _ => []
    end) items.

(** [(d) => (d.startsWith("www.") ? d.substring(4) : d)] *)
Definition stripWww (d : string) : string :=
  if startsWith d "www." then drop 4 d else d.

(** The default [sort()]: by code units, ascending. *)
Definition sortStrings (l : list string) : list string :=
  sort (fun x y => ltb y x) l.

Definition normalizeDomains (domains : option json) : list string :=
  match domains with
  | Some (JArr items) =>
      sortStrings
        (dedupe
           (map stripWww
              (map (fun d => toLowerCase (trim d)) (nonBlankStrings items))))
  | _ => []
  end.

Definition normalizeKeywords (keywords : option json) : list string :=
  match keywords with
  | Some (JArr items) =>
      sortStrings
        (dedupe (map (fun k => toLowerCase (trim k)) (nonBlankStrings items)))
  | _ => []
  end.

Definition inferCategory (metaPath : string) : string :=
  let p := replaceAll "092"%char "/"%char metaPath in
  if includes p "presets/votesites/" then "votesites"
  else if includes p "presets/rewards/" then "rewards"
  else if includes p "presets/milestones/" then "milestones"
  else if includes p "bundles/" then "bundles"
  else "other".

(** [meta?.verified === true] *)
Definition isTrue (v : option json) : bool :=
  match v with Some (JBool true) => true | _ => false end.

Definition toIndexEntry (meta : json) (relMetaPath : string) : outcome entry :=
  let id := asString (get (Some meta) "id") in
  let name := asString (get (get (Some meta) "display") "name") in
  match id with
  | None => Throw (Error ("Missing/invalid meta.id in " +:+ relMetaPath))
  | Some id =>
  if isEmpty (trim id)
  then Throw (Error ("Missing/invalid meta.id in " +:+ relMetaPath)) else
  match name with
  | None => Throw (Error ("Missing/invalid display.name in " +:+ relMetaPath))
  | Some name =>
  if isEmpty (trim name)
  then Throw (Error ("Missing/invalid display.name in " +:+ relMetaPath)) else
  let description :=
    orEmpty (asString (get (get (Some meta) "display") "description")) in
  let domains := normalizeDomains (get (get (Some meta) "match") "domains") in
  let keywords := normalizeKeywords (get (get (Some meta) "match") "keywords") in
  let updatedAt :=
    match asString (get (Some meta) "updatedAt") with
    | Some u => if isEmpty (trim u) then None else Some u
    | None => None
    end in
  Ok {| id := id;
        category := inferCategory relMetaPath;
        name := name;
        description := description;
        keywords := keywords;
        domains := domains;
        metaPath := replaceAll "092"%char "/"%char relMetaPath;
        updatedAt := updatedAt;
        verified := isTrue (get (Some meta) "verified") |}
  end end.

(** The bundle branch of the loop of [main]. *)
Definition bundleEntry (meta : json) (rel : string) : outcome entry :=
  match asString (get (Some meta) "id"),
        asString (get (get (Some meta) "display") "name") with
  | Some id, Some name =>
      Ok {| id := id;
            category := "bundles";
            name := name;
            description :=
              orEmpty (asString (get (get (Some meta) "display") "description"));
            keywords := normalizeKeywords (get (Some meta) "keywords");
            domains := [];
            metaPath := replaceAll "092"%char "/"%char rel;
            updatedAt := asString (get (Some meta) "updatedAt");
            verified := isTrue (get (Some meta) "verified") |}
  | _, _ => Throw (Error ("Bundle missing id/display.name: " +:+ rel))
  end.

Definition entryJson (e : entry) : json :=
  JObj [("id", JStr (id e));
        ("category", JStr (category e));
        ("name", JStr (name e));
        ("description", JStr (description e));
        ("keywords", JArr (map JStr (keywords e)));
        ("domains", JArr (map JStr (domains e)));
        ("metaPath", JStr (metaPath e));
        ("updatedAt", match updatedAt e with Some u => JStr u | None => JNull end);
        ("verified", JBool (verified e))].

Definition indexJson (generatedAt : string) (entries : list entry) : json :=
  JObj [("schemaVersion", JNum "1");
        ("generatedAt", JStr generatedAt);
        ("entries", JArr (map entryJson entries))].

(** The text [main] writes to [index.json]. *)
Definition indexText (generatedAt : string) (entries : list entry) : string :=
  stringify (indexJson generatedAt entries) +:+ nl.

Section Builder.
(** [JSON.parse]: [None] is a [SyntaxError]. *)
Variable JSON_parse : string -> option json.
(** [String.prototype.localeCompare] in the locale of the run. *)
Variable localeCompare : string -> string -> Z.
(** [new Date().toISOString()] *)
Variable now : string.

Definition readJson (filePath : path) (fs : tree) : outcome json :=
  raw ← readFileSync filePath fs;
  match JSON_parse raw with
  | Some v => Ok v
  | None => Throw SyntaxError
  end.

(** The comparator of [sortEntries]; [x || ""] is [x] on a string. *)
Definition compareEntries (a b : entry) : Z :=
  let c := localeCompare (category a) (category b) in
  if (c =? 0)%Z then localeCompare (id a) (id b) else c.

Definition sortEntries (entries : list entry) : list entry :=
  sort (fun a b => (0 <? compareEntries a b)%Z) entries.

(** The two scans that fill [metaFiles]. *)
Definition discover (fs : tree) : outcome (list path) :=
  metas ← (if exists_ ["presets"] fs
           then findFiles ["presets"] (fun n => endsWith n ".meta.json") fs
           else Ok []);
  bundles ← (if exists_ ["bundles"] fs
             then findFiles ["bundles"] (fun n => endsWith n ".bundle.json") fs
             else Ok []);
  Ok (metas ++ bundles).

(** The entry a discovered file gives, before the test on its id.
    The test [absMeta.endsWith(".bundle.json")] is taken on the
    relative path: every scanned path is longer than the suffix. *)
Definition project (p : path) (fs : tree) : outcome entry :=
  let rel := render p in
  meta ← readJson p fs;
  if endsWith rel ".bundle.json"
  then bundleEntry meta rel else toIndexEntry meta rel.

(** One turn of the loop of [main] over [metaFiles]; [acc] holds
    [entries] and [seenIds]. *)
Definition visit (acc : list entry * gset string) (p : path) (fs : tree)
  : outcome (list entry * gset string) :=
  e ← project p fs;
  if decide (id e ∈ acc.2)
  then Throw (Error ("Duplicate id: " +:+ id e))
  else Ok (acc.1 ++ [e], {[id e]} ∪ acc.2).

Fixpoint collect (files : list path) (acc : list entry * gset string)
  (fs : tree) : outcome (list entry * gset string) :=
  match files with
  | [] => Ok acc
  | p :: r => acc' ← visit acc p fs; collect r acc' fs
  end.

(** The entries of the index, sorted: everything [main] computes
    before it writes. *)
Definition build (fs : tree) : outcome (list entry) :=
  if negb (exists_ ["presets"] fs) && negb (exists_ ["bundles"] fs)
  then Throw (Exit 1)
  else
    metaFiles ← discover fs;
    acc ← collect metaFiles ([], ∅) fs;
    Ok (sortEntries acc.1).

(** A run of the script: its outcome and the file system it leaves. *)
Definition main (fs : tree) : outcome unit * tree :=
  match build fs with
  | Throw e => (Throw e, fs)
  | Ok entries =>
      match writeFileSync ["index.json"] (indexText now entries) fs with
      | Ok fs' => (Ok tt, fs')
      | Throw e => (Throw e, fs)
      end
  end.
End Builder.

End IndexBuilder.

(** ** The form parser and the preset generator,
       [tools/generate-preset-from-issue.mjs] *)

Module Generator.
Import Js Json Fs.

(** [.replace(/^https?:\/\//, "")] *)
Definition stripProtocol (s : string) : string :=
  if startsWith s "http://" then drop 7 s
  else if startsWith s "https://" then drop 8 s
  else s.

(** [.replace(/^www\./, "")] *)
Definition stripWww (s : string) : string :=
  if startsWith s "www." then drop 4 s else s.

Fixpoint hasLineTerminator (s : string) : bool :=
  match s with
  | "" => false
  | String c r => isLineTerminator c || hasLineTerminator r
  end.

(** [.replace(/\/.*$/, "")]: the match starts at the first [/] after
    which no line terminator stands before the end of the string. *)
Fixpoint cutPath (s : string) : string :=
  match s with
  | "" => ""
  | String c r =>
      if (if ascii_dec c "/" then true else false) && negb (hasLineTerminator r)
      then "" else String c (cutPath r)
  end.

(** [s] is a string or [undefined]. *)
Definition normDomain (s : option string) : string :=
  cutPath (stripWww (stripProtocol (toLowerCase (trim (orEmpty s))))).

(** *** Form parser *)

(** [text.split(/\r?\n/)]: a carriage return right before a line feed
    belongs to the separator the line feed starts. *)
Fixpoint splitLines (text : string) : list string :=
  match text with
  | "" => [""]
  | String c r =>
      if (code c =? 10)%N then "" :: splitLines r
      else if (code c =? 13)%N && startsWith r nl then splitLines r
      else match splitLines r with
           | [] => [String c ""]
           | x :: xs => String c x :: xs
           end
  end.

Fixpoint takeLine (s : string) : string :=
  match s with
  | "" => ""
  | String c r => if isLineTerminator c then "" else String c (takeLine r)
  end.

Fixpoint dropLine (s : string) : string :=
  match s with
  | "" => ""
  | String c r => if isLineTerminator c then s else dropLine r
  end.

(** [ln.match(re)] for the header pattern of [parseIssueForm] (the
    marker [###], whitespace, a group of any characters, optional
    whitespace, the end), giving the group [m[1]].  The greedy
    whitespace after the marker takes all of it, the group runs to the
    next line terminator or the end, and what is left has to be
    whitespace; giving characters back cannot turn a failure into a
    match. *)
Definition matchHeader (ln : string) : option string :=
  if startsWith ln "###" then
    let r := drop 3 ln in
    let r' := trimStart r in
    if (String.length r' <? String.length r)%nat
       && isEmpty (trimStart (dropLine r'))
    then Some (takeLine r') else None
  else None.

(** [out[k] = v] on the object literal [out], [v] a string: the key
    [__proto__] reaches the setter inherited from [Object.prototype],
    which ignores a string and adds no property. *)
Definition assign (k v : string) (out : gmap string string) : gmap string string :=
  if decide (k = "__proto__") then out else <[k := v]> out.

Record pstate : Type := {
  out : gmap string string;
  curKey : option string;     (* [None] is [null] *)
  buf : list string
}.

Definition flush (st : pstate) : pstate :=
  {| out := match curKey st with
            | Some k => assign k (trim (join nl (buf st))) (out st)
            | None => out st
            end;
     curKey := None;
     buf := [] |}.

(** The body of the loop over the lines. *)
Definition line (st : pstate) (ln : string) : pstate :=
  match matchHeader ln with
  | Some m1 =>
      {| out := out (flush st); curKey := Some (trim m1); buf := [] |}
  | None =>
      match curKey st with
      | Some _ => {| out := out st; curKey := curKey st; buf := buf st ++ [ln] |}
      | None => st
      end
  end.

(** The last loop: every value that reads [no response] becomes empty. *)
Definition noResponse (v : string) : string :=
  if String.eqb (toLowerCase (trim v)) "no response" then "" else v.

(** [body] is a string: [main] passes [process.env.ISSUE_BODY || ""]. *)
Definition parseIssueForm (body : string) : gmap string string :=
  let st := fold_left line (splitLines body)
              {| out := ∅; curKey := None; buf := [] |} in
  noResponse <$> out (flush st).

(** *** Generator *)

Definition hasNul (s : string) : bool := includes s (String "000"%char "").

(** [writeFile(p, content)]: [mkdirp(path.dirname(p))], then
    [fs.writeFileSync(p, content, "utf8")].  Both calls refuse a path
    with a NUL in it. *)
Definition writeFile (p : path) (content : string) (fs : tree)
  : outcome unit * tree :=
  if existsb hasNul (dirname p)
  then (Throw (SystemError "ERR_INVALID_ARG_VALUE"), fs) else
  match mkdirp (dirname p) fs with
  | Throw e => (Throw e, fs)
  | Ok fs1 =>
      if existsb hasNul p
      then (Throw (SystemError "ERR_INVALID_ARG_VALUE"), fs1) else
      match writeFileSync p content fs1 with
      | Throw e => (Throw e, fs1)
      | Ok fs2 => (Ok tt, fs2)
      end
  end.

Definition isBoolStr (s : string) : bool :=
  let v := toLowerCase (trim s) in
  String.eqb v "true" || String.eqb v "false".

Fixpoint allDigits (s : string) : bool :=
  match s with
  | "" => true
  | String c r => isDigit c && allDigits r
  end.

(** [/^\d+$/.test(s.trim())] *)
Definition isIntStr (s : string) : bool :=
  let v := trim s in negb (isEmpty v) && allDigits v.

(** [fields[k]]: an own property or [undefined]; no key the generator
    reads is inherited from [Object.prototype]. *)
Definition field (fields : gmap string string) (k : string) : option string :=
  fields !! k.

(** [(fields[k] || "").trim()] *)
Definition trimmed (fields : gmap string string) (k : string) : string :=
  trim (orEmpty (field fields k)).

Definition placeholder (label default : string) : json :=
  JObj [("type", JStr "string"); ("label", JStr label); ("default", JStr default)].

(** U+2013 as the bytes the written file holds for it. *)
Definition enDash : string :=
  String "226"%char (String "128"%char (String "147"%char "")).

(** The loop over [extraDomainsRaw.split(",")]. *)
Definition addDomain (domains : list string) (d : string) : list string :=
  let nd := normDomain (Some d) in
  if negb (isEmpty nd) && negb (existsb (String.eqb nd) domains)
  then domains ++ [nd] else domains.

Definition votesitePlaceholders (fields : gmap string string) : json :=
  let siteKey := trimmed fields "VoteSite key (siteKey)" in
  let displayName := trimmed fields "Display name (displayName)" in
  let serviceSite := trimmed fields "ServiceSite (required)" in
  let voteUrlDefault :=
    let v := trimmed fields "Default VoteURL placeholder" in
    if isEmpty v then "ADD_VOTE_URL_LATER" else v in
  let voteDelay := trimmed fields "VoteDelay (optional)" in
  let waitUntil := trimmed fields "WaitUntilVoteDelay (optional)" in
  let daily := trimmed fields "VoteDelayDaily (optional)" in
  let dailyHour := trimmed fields "VoteDelayDailyHour (optional)" in
  JObj [
    ("siteKey", placeholder "VoteSite key" siteKey);
    ("displayName", placeholder "VoteSite display name" displayName);
    ("serviceSite", placeholder "ServiceSite" serviceSite);
    ("voteURL", placeholder "Vote URL" voteUrlDefault);
    ("voteDelay", placeholder "VoteDelay (blank = omit)" voteDelay);
    ("waitUntilVoteDelay",
       placeholder "WaitUntilVoteDelay (true/false, blank = omit)"
         (if isBoolStr waitUntil then toLowerCase waitUntil else ""));
    ("voteDelayDaily",
       placeholder "VoteDelayDaily (true/false, blank = omit)"
         (if isBoolStr daily then toLowerCase daily else ""));
    ("voteDelayDailyHour",
       placeholder ("VoteDelayDailyHour (0" +:+ enDash +:+ "23, blank = omit)")
         (if isIntStr dailyHour then dailyHour else ""))
  ].

(** The [votesite] branch of [main] up to the write: the path and the
    document, or the validation error. *)
Definition votesite (fields : gmap string string) : outcome (path * json) :=
  let domain := normDomain (field fields "Domain (no protocol)") in
  let extraDomainsRaw := field fields "Extra domains (comma separated)" in
  let presetId := trimmed fields "Preset ID" in
  let siteKey := trimmed fields "VoteSite key (siteKey)" in
  let displayName := trimmed fields "Display name (displayName)" in
  let serviceSite := trimmed fields "ServiceSite (required)" in
  if isEmpty domain then Throw (Error "Domain is required") else
  if negb (startsWith presetId "votesite:")
  then Throw (Error "Preset ID must start with votesite:") else
  if isEmpty siteKey then Throw (Error "siteKey is required") else
  if isEmpty displayName then Throw (Error "displayName is required") else
  if isEmpty serviceSite then Throw (Error "serviceSite is required") else
  let domains :=
    if truthy extraDomainsRaw
    then fold_left addDomain (split ","%char (orEmpty extraDomainsRaw)) [domain]
    else [domain] in
  let slug := replaceAll "."%char "_"%char domain in
  let metaPath := pathJoin ["presets"; "votesites"; slug +:+ ".meta.json"] in
  let meta :=
    JObj [
      ("schemaVersion", JNum "1");
      ("id", JStr presetId);
      ("display", JObj [
         ("name", JStr (displayName +:+ " (generic)"));
         ("description", JStr ("Generic " +:+ displayName +:+ " VoteSite preset."))]);
      ("match", JObj [
         ("domains", JArr (map JStr domains));
         ("keywords", JArr [JStr (toLowerCase siteKey); JStr (toLowerCase displayName)])]);
      ("placeholders", votesitePlaceholders fields);
      ("fragments", JArr [
         JObj [("path", JStr "presets/votesites/generic.votesites.yml");
               ("mergeInto", JStr "VoteSites")]]);
      ("verified", JBool false)
    ] in
  Ok (metaPath, meta).

(** The reward branch of [main] up to the writes: both paths with their
    contents, or the validation error. *)
Definition reward (fields : gmap string string)
  : outcome ((path * json) * (path * string)) :=
  let presetId := trimmed fields "Preset ID" in
  let displayName := trimmed fields "Display name" in
  let rewardType := toLowerCase (trimmed fields "Reward type") in
  let lines := trimmed fields "Default lines (one per line)" in
  if negb (startsWith presetId "reward:")
  then Throw (Error "Preset ID must start with reward:") else
  if isEmpty displayName then Throw (Error "display name is required") else
  if negb (String.eqb rewardType "commands") && negb (String.eqb rewardType "messages")
  then Throw (Error "Reward type must be commands or messages") else
  if isEmpty lines then Throw (Error "Default lines required") else
  let slug := replaceAll "/"%char "_"%char (replaceAll ":"%char "_"%char presetId) in
  let metaPath := pathJoin ["presets"; "rewards"; slug +:+ ".meta.json"] in
  let ymlPath := pathJoin ["presets"; "rewards"; slug +:+ ".rewardblock.yml"] in
  let isCommands := String.eqb rewardType "commands" in
  let placeholderKey := if isCommands then "commands" else "messages" in
  let blockKey := if isCommands then "commandsBlock" else "messagesBlock" in
  let headerKey := if isCommands then "Commands" else "Messages" in
  let meta :=
    JObj [
      ("schemaVersion", JNum "1");
      ("id", JStr presetId);
      ("display", JObj [
         ("name", JStr displayName);
         ("description",
            JStr ("Inline Reward (" +:+ rewardType +:+
                  ") merged into VoteSites.<siteKey>.Rewards."))]);
      ("match", JObj [
         ("keywords", JArr [JStr "reward"; JStr "inline"; JStr rewardType])]);
      ("placeholders", JObj [
         (placeholderKey, placeholder (headerKey +:+ " (one per line)") lines)]);
      ("fragments", JArr [
         JObj [("path", JStr ("presets/rewards/" +:+ basename ymlPath));
               ("mergeInto", JStr "VoteSites.<siteKey>.Rewards")]]);
      ("verified", JBool false)
    ] in
  let yml := headerKey +:+ ":" +:+ nl +:+ "<" +:+ blockKey +:+ ">" +:+ nl in
  Ok ((metaPath, meta), (ymlPath, yml)).

(** [process.env] as [main] reads it; [None] is an unset variable. *)
Record env : Type := {
  ISSUE_NUMBER : option string;
  ISSUE_TITLE : option string;
  ISSUE_BODY : option string;
  PRESET_KIND : option string
}.

Definition kindOf (e : env) : string :=
  if truthy (PRESET_KIND e) then orEmpty (PRESET_KIND e)
  else if includes (toLowerCase (orEmpty (ISSUE_TITLE e))) "reward"
       then "reward" else "votesite".

Section Run.
Variable JSON_parse : string -> option json.
Variable localeCompare : string -> string -> Z.
Variable now : string.

(** [execSync("node tools/build-index.mjs", ...)]: the index builder
    runs on the file system as it is; a run that does not end well
    makes [execSync] throw. *)
Definition rebuildIndex (fs : tree) : outcome unit * tree :=
  match IndexBuilder.main JSON_parse localeCompare now fs with
  | (Ok _, fs') => (Ok tt, fs')
  | (Throw _, fs') => (Throw (CommandFailed "node tools/build-index.mjs"), fs')
  end.

(** A run of the script: its outcome and the file system it leaves. *)
Definition main (e : env) (fs : tree) : outcome unit * tree :=
  let issueNumber := ISSUE_NUMBER e in
  let issueBody := orEmpty (ISSUE_BODY e) in
  if negb (truthy issueNumber)
  then (Throw (Error "Missing ISSUE_NUMBER env var"), fs) else
  let fields := parseIssueForm issueBody in
  let kind := kindOf e in
  if String.eqb kind "votesite" then
    match votesite fields with
    | Throw err => (Throw err, fs)
    | Ok (metaPath, meta) =>
        match writeFile metaPath (stringify meta +:+ nl) fs with
        | (Throw err, fs1) => (Throw err, fs1)
        | (Ok _, fs1) => rebuildIndex fs1
        end
    end
  else
    match reward fields with
    | Throw err => (Throw err, fs)
    | Ok ((metaPath, meta), (ymlPath, yml)) =>
        match writeFile metaPath (stringify meta +:+ nl) fs with
        | (Throw err, fs1) => (Throw err, fs1)
        | (Ok _, fs1) =>
            match writeFile ymlPath yml fs1 with
            | (Throw err, fs2) => (Throw err, fs2)
            | (Ok _, fs2) => rebuildIndex fs2
            end
        end
    end.
End Run.

End Generator.

(** ** Notions the statements use *)

Module Statements.
Import Js Json Fs IndexBuilder Generator.

(** The categories an index entry can have. *)
Definition categories : list string :=
  ["votesites"; "rewards"; "milestones"; "bundles"; "other"].

(** What the normalisation of domains and keywords guarantees of an
    entry. *)
Definition normalizedEntry (e : entry) : Prop :=
  NoDup (domains e) /\
  (forall d, d ∈ domains e ->
     toLowerCase d = d /\ trimEnd d = d /\
     exists x, d = IndexBuilder.stripWww (toLowerCase (trim x))) /\
  NoDup (keywords e) /\
  (forall k, k ∈ keywords e -> toLowerCase (trim k) = k).

(** [JSON.parse] on the texts [JSON.stringify] gives for [docs]. *)
Definition parseOnly (docs : list json) (text : string) : option json :=
  List.find (fun d => String.eqb (stringify d) text) docs.

(** Comparison by code units: a consistent comparator. *)
Definition compareCodeUnits (a b : string) : Z :=
  if ltb a b then (-1)%Z else if ltb b a then 1%Z else 0%Z.

(** A preset document with an id, a display name and domains. *)
Definition presetDoc (id name : string) (domains : list string) : json :=
  JObj [("id", JStr id);
        ("display", JObj [("name", JStr name)]);
        ("match", JObj [("domains", JArr (map JStr domains))])].

(** A repository that holds [docs] as files of the directory
    [presets/<folder>]. *)
Definition presetsTree (folder : string) (docs : list (string * json)) : tree :=
  [("presets",
    Dir [(folder, Dir (map (fun d => (fst d, File (stringify (snd d)))) docs))])].

(** The first id of [ids] that stands in [seen] or earlier in [ids]. *)
Fixpoint firstRepeat (seen ids : list string) : option string :=
  match ids with
  | [] => None
  | x :: r =>
      if existsb (String.eqb x) seen then Some x else firstRepeat (x :: seen) r
  end.

(** The lines of a body: those up to the next header line. *)
Fixpoint bodyLines (ls : list string) : list string :=
  match ls with
  | [] => []
  | ln :: r =>
      match matchHeader ln with
      | Some _ => []
      | None => ln :: bodyLines r
      end
  end.

(** The headers of a form in their order, each with its trimmed field
    name and the lines of its body. *)
Fixpoint rawSections (ls : list string) : list (string * list string) :=
  match ls with
  | [] => []
  | ln :: r =>
      match matchHeader ln with
      | Some m1 => (trim m1, bodyLines r) :: rawSections r
      | None => rawSections r
      end
  end.

(** The text of a body: its lines joined by a newline and trimmed, and
    empty when that reads [no response] in any case. *)
Definition bodyText (b : list string) : string :=
  noResponse (trim (join nl b)).

Definition sectionsOf (ls : list string) : list (string * string) :=
  map (fun s => (fst s, bodyText (snd s))) (rawSections ls).

(** What the last pair of [secs] with the key [k] holds. *)
Fixpoint lastField {V} (k : string) (secs : list (string * V)) : option V :=
  match secs with
  | [] => None
  | (k', v) :: r =>
      match lastField k r with
      | Some v' => Some v'
      | None => if String.eqb k' k then Some v else None
      end
  end.

(** The assignments the parser makes for [secs], in order. *)
Definition assignAll (secs : list (string * list string))
  (o : gmap string string) : gmap string string :=
  fold_left (fun o s => assign (fst s) (trim (join nl (snd s))) o) secs o.

(** The state of the parser once the lines [b] have joined the body it
    is reading. *)
Definition extend (st : pstate) (b : list string) : pstate :=
  match curKey st with
  | Some _ => {| out := out st; curKey := curKey st; buf := buf st ++ b |}
  | None => st
  end.

(** The environment [e] with [ISSUE_NUMBER] set to [n]. *)
Definition withIssueNumber (n : string) (e : env) : env :=
  {| ISSUE_NUMBER := Some n;
     ISSUE_TITLE := ISSUE_TITLE e;
     ISSUE_BODY := ISSUE_BODY e;
     PRESET_KIND := PRESET_KIND e |}.

(** The body of an issue form with the given labels and answers. *)
Definition form (answers : list (string * string)) : string :=
  join (nl +:+ nl)
    (map (fun a => "### " +:+ fst a +:+ nl +:+ nl +:+ snd a) answers).

(** A VoteSite submission for [example.com] with a vote delay in words. *)
Definition exampleSite : env :=
  {| ISSUE_NUMBER := Some "7";
     ISSUE_TITLE := Some "New VoteSite";
     ISSUE_BODY := Some (form [
       ("Domain (no protocol)", "example.com");
       ("Preset ID", "votesite:example");
       ("VoteSite key (siteKey)", "Example");
       ("Display name (displayName)", "Example Site");
       ("ServiceSite (required)", "ExampleService");
       ("VoteDelay (optional)", "soon")]);
     PRESET_KIND := Some "votesite" |}.

(** A repository that has a preset for [example.com] already. *)
Definition exampleRepo : tree :=
  [("presets", Dir [("votesites", Dir [("example_com.meta.json", File "kept")])])].

(** A Reward submission of the type [music]. *)
Definition musicReward : env :=
  {| ISSUE_NUMBER := Some "8";
     ISSUE_TITLE := Some "New Reward";
     ISSUE_BODY := Some (form [
       ("Preset ID", "reward:music");
       ("Display name", "Music");
       ("Reward type", "music");
       ("Default lines (one per line)", "play a song")]);
     PRESET_KIND := Some "reward" |}.

(** The placeholder names of a VoteSite preset. *)
Definition votesiteSlots : list string :=
  ["siteKey"; "displayName"; "serviceSite"; "voteURL"; "voteDelay";
   "waitUntilVoteDelay"; "voteDelayDaily"; "voteDelayDailyHour"].

(** The validation errors of a Reward submission up to its type. *)
Definition rewardTypeErrors : list string :=
  ["Missing ISSUE_NUMBER env var";
   "Preset ID must start with reward:";
   "display name is required";
   "Reward type must be commands or messages"].

(** A repository with one preset under [presets/bundles] *)
Definition packTree : tree :=
  presetsTree "bundles" [("pack.meta.json", presetDoc "votesite:pack" "Pack" [])].

(** A repository with one preset whose domain starts with [www.] twice. *)
Definition wwwTree : tree :=
  presetsTree "votesites"
    [("a.meta.json", presetDoc "votesite:a" "A" ["www.www.a.com"])].

(** A repository with two presets. *)
Definition twoTree : tree :=
  presetsTree "votesites"
    [("b.meta.json", presetDoc "votesite:b" "B" []);
     ("a.meta.json", presetDoc "votesite:a" "A" [])].

(** A repository with two presets of one id, and an index from before. *)
Definition twinTree : tree :=
  presetsTree "votesites"
    [("a.meta.json", presetDoc "votesite:a" "A" []);
     ("b.meta.json", presetDoc "votesite:a" "B" [])]
  ++ [("index.json", File "old")].

(** A form with two headers of one name. *)
Definition twiceForm : string :=
  "### Name" +:+ nl +:+ "first" +:+ nl +:+ "### Name" +:+ nl +:+ "second".

(** The carriage return. *)
Definition cr : string := String "013"%char "".

(** The text with a carriage return put before every line feed. *)
Fixpoint crlf (s : string) : string :=
  match s with
  | "" => ""
  | String c r =>
      if (code c =? 10)%N then String "013"%char (String c (crlf r))
      else String c (crlf r)
  end.

(** A Reward submission of the type [commands]. *)
Definition dailyReward : env :=
  {| ISSUE_NUMBER := Some "9";
     ISSUE_TITLE := Some "New Reward";
     ISSUE_BODY := Some (form [
       ("Preset ID", "reward:vote/daily");
       ("Display name", "Daily");
       ("Reward type", "Commands");
       ("Default lines (one per line)", "give %player% diamond 1")]);
     PRESET_KIND := Some "reward" |}.

(** The names of a directory name one node each, all the way down. *)
Fixpoint wellFormed (n : node) : Prop :=
  match n with
  | File _ => True
  | Dir es =>
      NoDup (map fst es) /\
      (fix each (es : tree) : Prop :=
         match es with
         | [] => True
         | (_, child) :: r => wellFormed child /\ each r
         end) es
  end.

(** The file with the content [c] stands at the path [q] below the
    entries [es]. *)
Inductive resolves : path -> tree -> string -> Prop :=
  | resolves_file k c es :
      (k, File c) ∈ es -> resolves [k] es c
  | resolves_dir k sub es q c :
      (k, Dir sub) ∈ es -> resolves q sub c -> resolves (k :: q) es c.

(** A bundle document without id, and a repository that holds it. *)
Definition namelessBundle : json :=
  JObj [("display", JObj [("name", JStr "Starter")])].

Definition bundleTree : tree :=
  [("bundles", Dir [("starter.bundle.json", File (stringify namelessBundle))]);
   ("index.json", File "old")].

(** A preset with three domains, and a repository that holds it. *)
Definition orgDoc : json :=
  presetDoc "votesite:a" "A" ["b.org"; "www.a.org"; "A.org"].

Definition orgTree : tree := presetsTree "votesites" [("a.meta.json", orgDoc)].

Definition orgEntry : entry :=
  {| id := "votesite:a"; category := "votesites"; name := "A";
     description := ""; keywords := []; domains := ["a.org"; "b.org"];
     metaPath := "presets/votesites/a.meta.json";
     updatedAt := None; verified := false |}.

(** A comparator that puts letters in the order of the alphabet
    whatever their case, and of two texts that differ in case alone the
    one in lower case first.  On texts that differ in ASCII letters
    alone it agrees with [localeCompare] in the root and the English
    collation. *)
Definition compareLetters (a b : string) : Z :=
  let c := compareCodeUnits (toLowerCase a) (toLowerCase b) in
  if (c =? 0)%Z then compareCodeUnits b a else c.

(** A repository with two presets whose ids differ in a letter and in
    its case. *)
Definition caseDocs : list json :=
  [presetDoc "votesite:B" "B" []; presetDoc "votesite:a" "A" []].

Definition caseTree : tree :=
  presetsTree "votesites"
    [("b.meta.json", presetDoc "votesite:B" "B" []);
     ("a.meta.json", presetDoc "votesite:a" "A" [])].

(** The entry of the preset of [wwwTree]. *)
Definition wwwEntry : entry :=
  {| id := "votesite:a"; category := "votesites"; name := "A";
     description := ""; keywords := []; domains := ["www.a.com"];
     metaPath := "presets/votesites/a.meta.json";
     updatedAt := None; verified := false |}.

End Statements.

(** * Properties *)

(** ** Strings and lists *)

Module JsFacts.
Import Js.

Ltac each_char c := destruct c as [[] [] [] [] [] [] [] []]; vm_compute; try reflexivity.

Lemma isWhiteSpace_lowerChar c : isWhiteSpace (lowerChar c) = isWhiteSpace c.
Proof. each_char c. Qed.

Lemma lowerChar_idem c : lowerChar (lowerChar c) = lowerChar c.
Proof. each_char c. Qed.

Lemma toLowerCase_idem s : toLowerCase (toLowerCase s) = toLowerCase s.
Proof. induction s as [|c r IH]; simpl; [done|]. by rewrite lowerChar_idem, IH. Qed.

Lemma isEmpty_toLowerCase s : isEmpty (toLowerCase s) = isEmpty s.
Proof. by destruct s. Qed.

Lemma isEmpty_true s : isEmpty s = true <-> s = "".
Proof. destruct s; simpl; split; congruence. Qed.

Lemma trimStart_toLowerCase s :
  trimStart (toLowerCase s) = toLowerCase (trimStart s).
Proof.
  induction s as [|c r IH]; simpl; [done|].
  rewrite isWhiteSpace_lowerChar. by destruct (isWhiteSpace c).
Qed.

Lemma trimEnd_toLowerCase s :
  trimEnd (toLowerCase s) = toLowerCase (trimEnd s).
Proof.
  induction s as [|c r IH]; simpl; [done|].
  rewrite isWhiteSpace_lowerChar, IH, isEmpty_toLowerCase.
  by destruct (isWhiteSpace c && isEmpty (trimEnd r)).
Qed.

Lemma trim_toLowerCase s : trim (toLowerCase s) = toLowerCase (trim s).
Proof. unfold trim. by rewrite trimStart_toLowerCase, trimEnd_toLowerCase. Qed.

Lemma trimEnd_idem s : trimEnd (trimEnd s) = trimEnd s.
Proof.
  induction s as [|c r IH]; simpl; [done|].
  destruct (isWhiteSpace c && isEmpty (trimEnd r)) eqn:E; simpl; [done|].
  by rewrite IH, E.
Qed.

(** A string that starts with no blank is left alone by [trimStart], and
    so is what [trimEnd] leaves of it. *)
Lemma trimStart_trimEnd_trimStart s :
  trimStart (trimEnd (trimStart s)) = trimEnd (trimStart s).
Proof.
  induction s as [|c r IH]; simpl; [done|].
  destruct (isWhiteSpace c) eqn:E; [done|].
  simpl. rewrite E. simpl. by rewrite E.
Qed.

Lemma trim_idem s : trim (trim s) = trim s.
Proof. unfold trim. by rewrite trimStart_trimEnd_trimStart, trimEnd_idem. Qed.

Lemma toLowerCase_drop n s : toLowerCase (drop n s) = drop n (toLowerCase s).
Proof. revert s; induction n as [|n IH]; intros [|c r]; simpl; auto. Qed.

Lemma trimEnd_fixed_tail c r : trimEnd (String c r) = String c r -> trimEnd r = r.
Proof.
  simpl. destruct (isWhiteSpace c && isEmpty (trimEnd r)); congruence.
Qed.

Lemma trimEnd_drop n s : trimEnd s = s -> trimEnd (drop n s) = drop n s.
Proof.
  revert s; induction n as [|n IH]; intros [|c r] H; simpl; auto.
  apply IH. by eapply trimEnd_fixed_tail.
Qed.

Lemma trimEnd_trim s : trimEnd (trim s) = trim s.
Proof. unfold trim. apply trimEnd_idem. Qed.

(** *** The sort and the filter of duplicates *)

Section SortFacts.
Context {A : Type} (gt : A -> A -> bool).

Lemma insert_sorted_perm x l : insert_sorted gt x l ≡ₚ x :: l.
Proof.
  induction l as [|y r IH]; simpl; [done|].
  destruct (gt x y); [|done].
  rewrite IH. apply Permutation_swap.
Qed.

Lemma sort_perm l : sort gt l ≡ₚ l.
Proof.
  induction l as [|x r IH]; simpl; [done|].
  by rewrite insert_sorted_perm, IH.
Qed.
End SortFacts.

Lemma filter_first_from_elem a i l x :
  x ∈ filter_first_from a i l ->
  x ∈ l /\ exists j, (i <= j)%nat /\ indexOf a x = Some j.
Proof.
  revert i; induction l as [|d r IH]; intros i; simpl.
  - by intros ?%elem_of_nil.
  - destruct (decide (indexOf a d = Some i)) as [Hd|Hd].
    + intros [->|Hin]%elem_of_cons.
      * split; [left|]. eauto.
      * destruct (IH _ Hin) as (? & j & ? & ?). split; [by right|].
        exists j. split; [lia|done].
    + intros Hin. destruct (IH _ Hin) as (? & j & ? & ?). split; [by right|].
      exists j. split; [lia|done].
Qed.

Lemma filter_first_from_NoDup a i l : NoDup (filter_first_from a i l).
Proof.
  revert i; induction l as [|d r IH]; intros i; simpl; [constructor|].
  destruct (decide (indexOf a d = Some i)) as [Hd|Hd]; [|apply IH].
  constructor; [|apply IH].
  intros (_ & j & Hj & Hidx)%filter_first_from_elem.
  rewrite Hd in Hidx. injection Hidx as <-. lia.
Qed.

Lemma dedupe_NoDup a : NoDup (dedupe a).
Proof. apply filter_first_from_NoDup. Qed.

Lemma dedupe_elem a x : x ∈ dedupe a -> x ∈ a.
Proof. intros H. by apply filter_first_from_elem in H as [? _]. Qed.

End JsFacts.

(** ** The file system *)

Module FsFacts.
Import Js Fs.

Lemma entry_setEntry_eq k n d : entry k (setEntry k n d) = Some n.
Proof.
  induction d as [|[k' v] r IH]; simpl.
  - by rewrite String.eqb_refl.
  - destruct (String.eqb_spec k' k) as [->|Hne]; simpl.
    + by rewrite String.eqb_refl.
    + by destruct (String.eqb_spec k' k).
Qed.

Lemma entry_setEntry_ne k k' n d :
  k <> k' -> entry k' (setEntry k n d) = entry k' d.
Proof.
  intros Hne. induction d as [|[k0 v] r IH]; simpl.
  - by destruct (String.eqb_spec k k').
  - destruct (String.eqb_spec k0 k) as [->|Hne0]; simpl.
    + by destruct (String.eqb_spec k k').
    + by rewrite IH.
Qed.

Lemma lookup_setEntry_ne k n s p d :
  k <> s -> lookup (s :: p) (setEntry k n d) = lookup (s :: p) d.
Proof. intros Hne. simpl. by rewrite entry_setEntry_ne. Qed.

(** Writing at the root changes one entry. *)
Lemma writeFileSync_root k content d d' :
  writeFileSync [k] content d = Ok d' -> d' = setEntry k (File content) d.
Proof. simpl. destruct (entry k d) as [[]|]; congruence. Qed.

Lemma writeFileSync_root_again k c0 content d :
  writeFileSync [k] content (setEntry k (File c0) d)
  = Ok (setEntry k (File content) (setEntry k (File c0) d)).
Proof. simpl. by rewrite entry_setEntry_eq. Qed.

Lemma readFileSync_root_written k content d :
  readFileSync [k] (setEntry k (File content) d) = Ok content.
Proof. unfold readFileSync. simpl. by rewrite entry_setEntry_eq. Qed.

End FsFacts.

(** ** The index builder *)

Module IndexFacts.
Import Js Json Fs IndexBuilder JsFacts FsFacts Statements.

(** Every path [findFiles] gives lies below the directory it scans. *)
Lemma walk_below m : forall n full name p,
  p ∈ walk m full name n -> exists q, p = full ++ q.
Proof.
  fix IH 1. intros [c|es] full name p; simpl.
  - destruct (m name); [|by intros ?%elem_of_nil].
    intros ->%list_elem_of_singleton. exists []. by rewrite app_nil_r.
  - induction es as [|[nm child] r IHr]; [by intros ?%elem_of_nil|].
    intros [H|H]%elem_of_app; [|by apply IHr].
    apply IH in H as [q ->]. exists (nm :: q). by rewrite <- app_assoc.
Qed.

Lemma findFilesIn_below m dir es p :
  p ∈ findFilesIn m dir es -> exists q, p = dir ++ q.
Proof.
  unfold findFilesIn. rewrite list_elem_of_In, in_flat_map.
  intros ([nm child] & _ & H). simpl in H.
  apply list_elem_of_In, walk_below in H as [q ->].
  exists (nm :: q). by rewrite <- app_assoc.
Qed.

Lemma findFiles_below m dir fs files p :
  findFiles dir m fs = Ok files -> p ∈ files -> exists q, p = dir ++ q.
Proof.
  unfold findFiles. destruct (lookup dir fs) as [[c|es]|]; try done.
  intros [= <-]. apply findFilesIn_below.
Qed.


(** *** Normalisation *)

Lemma sortStrings_perm l : sortStrings l ≡ₚ l.
Proof. apply sort_perm. Qed.

Lemma elem_of_map {A B} (f : A -> B) l y :
  y ∈ map f l <-> exists x, y = f x /\ x ∈ l.
Proof.
  rewrite list_elem_of_In, in_map_iff. split.
  - intros (x & <- & H). exists x. by rewrite list_elem_of_In.
  - intros (x & -> & H). exists x. by rewrite <- list_elem_of_In.
Qed.

Lemma stripWww_lowered d : toLowerCase d = d -> toLowerCase (stripWww d) = stripWww d.
Proof.
  intros H. unfold stripWww. destruct (startsWith d "www."); [|done].
  by rewrite toLowerCase_drop, H.
Qed.

Lemma stripWww_trimEnd d : trimEnd d = d -> trimEnd (stripWww d) = stripWww d.
Proof.
  intros H. unfold stripWww. destruct (startsWith d "www."); [|done].
  by apply trimEnd_drop.
Qed.

Lemma normalizeDomains_NoDup v : NoDup (normalizeDomains v).
Proof.
  destruct v as [[]|]; simpl; try constructor.
  rewrite sortStrings_perm. apply dedupe_NoDup.
Qed.

Lemma normalizeDomains_elem v d :
  d ∈ normalizeDomains v -> exists x, d = stripWww (toLowerCase (trim x)).
Proof.
  destruct v as [[]|]; simpl; try by intros ?%elem_of_nil.
  rewrite sortStrings_perm. intros H%dedupe_elem.
  apply elem_of_map in H as (y & -> & H).
  apply elem_of_map in H as (x & -> & _). by exists x.
Qed.

Lemma normalizeDomains_fixed v d :
  d ∈ normalizeDomains v ->
  toLowerCase d = d /\ trimEnd d = d /\
  exists x, d = stripWww (toLowerCase (trim x)).
Proof.
  intros [x ->]%normalizeDomains_elem. split; [|split].
  - apply stripWww_lowered, toLowerCase_idem.
  - apply stripWww_trimEnd.
    by rewrite trimEnd_toLowerCase, trimEnd_trim.
  - by exists x.
Qed.

Lemma normalizeKeywords_NoDup v : NoDup (normalizeKeywords v).
Proof.
  destruct v as [[]|]; simpl; try constructor.
  rewrite sortStrings_perm. apply dedupe_NoDup.
Qed.

Lemma normalizeKeywords_fixed v k :
  k ∈ normalizeKeywords v -> toLowerCase (trim k) = k.
Proof.
  destruct v as [[]|]; simpl; try by intros ?%elem_of_nil.
  rewrite sortStrings_perm. intros H%dedupe_elem.
  apply elem_of_map in H as (x & -> & _).
  by rewrite trim_toLowerCase, trim_idem, toLowerCase_idem.
Qed.

Lemma inferCategory_categories p : inferCategory p ∈ categories.
Proof.
  unfold inferCategory, categories.
  repeat match goal with |- context [if ?b then _ else _] => destruct b end;
    set_solver.
Qed.

(** What [toIndexEntry] returns, field by field. *)
Lemma toIndexEntry_Ok meta rel e :
  toIndexEntry meta rel = Ok e ->
  asString (get (Some meta) "id") = Some (id e) /\
  category e = inferCategory rel /\
  domains e = normalizeDomains (get (get (Some meta) "match") "domains") /\
  keywords e = normalizeKeywords (get (get (Some meta) "match") "keywords").
Proof.
  unfold toIndexEntry.
  destruct (asString (get (Some meta) "id")) as [i|]; [|done].
  destruct (isEmpty (trim i)); [done|].
  destruct (asString (get (get (Some meta) "display") "name")) as [n|]; [|done].
  destruct (isEmpty (trim n)); [done|].
  by intros [= <-].
Qed.

Lemma bundleEntry_Ok meta rel e :
  bundleEntry meta rel = Ok e ->
  asString (get (Some meta) "id") = Some (id e) /\
  category e = "bundles" /\
  domains e = [] /\
  keywords e = normalizeKeywords (get (Some meta) "keywords").
Proof.
  unfold bundleEntry.
  destruct (asString (get (Some meta) "id")) as [i|]; [|done].
  destruct (asString (get (get (Some meta) "display") "name")) as [n|]; [|done].
  by intros [= <-].
Qed.

Section BuilderFacts.
Variable JSON_parse : string -> option json.
Variable localeCompare : string -> string -> Z.

Lemma project_inv p fs e :
  project JSON_parse p fs = Ok e ->
  exists meta,
    readJson JSON_parse p fs = Ok meta /\
    (bundleEntry meta (render p) = Ok e \/ toIndexEntry meta (render p) = Ok e).
Proof.
  unfold project. destruct (readJson JSON_parse p fs) as [meta|]; [|done].
  simpl. destruct (endsWith (render p) ".bundle.json"); eauto.
Qed.

Lemma project_normalized p fs e :
  project JSON_parse p fs = Ok e -> normalizedEntry e /\ category e ∈ categories.
Proof.
  intros (meta & _ & [H|H])%project_inv.
  - apply bundleEntry_Ok in H as (_ & Hc & Hd & Hk).
    unfold normalizedEntry. rewrite Hc, Hd, Hk. split; [|set_solver].
    split_and!; [constructor|by intros ? ?%elem_of_nil| |].
    + apply normalizeKeywords_NoDup.
    + apply normalizeKeywords_fixed.
  - apply toIndexEntry_Ok in H as (_ & Hc & Hd & Hk).
    unfold normalizedEntry. rewrite Hc, Hd, Hk.
    split; [|apply inferCategory_categories].
    split_and!.
    + apply normalizeDomains_NoDup.
    + apply normalizeDomains_fixed.
    + apply normalizeKeywords_NoDup.
    + apply normalizeKeywords_fixed.
Qed.

Lemma visit_Ok acc p fs acc' :
  visit JSON_parse acc p fs = Ok acc' ->
  exists e, project JSON_parse p fs = Ok e /\ (id e ∉ acc.2) /\
            acc' = (acc.1 ++ [e], {[id e]} ∪ acc.2).
Proof.
  unfold visit. destruct (project JSON_parse p fs) as [e|]; [|done]. simpl.
  destruct (decide (id e ∈ acc.2)); [done|]. intros [= <-]. eauto.
Qed.

(** Every collected entry is the projection of a scanned file. *)
Lemma collect_entries files : forall acc fs acc',
  collect JSON_parse files acc fs = Ok acc' ->
  forall e, e ∈ acc'.1 ->
    e ∈ acc.1 \/ exists p, p ∈ files /\ project JSON_parse p fs = Ok e.
Proof.
  induction files as [|p r IH]; intros acc fs acc'; simpl.
  - intros [= <-]. auto.
  - destruct (visit JSON_parse acc p fs) as [acc1|] eqn:Hv; [|done]. simpl.
    apply visit_Ok in Hv as (e0 & Hp & _ & ->).
    intros Hc e He. destruct (IH _ _ _ Hc e He) as [Hin|(q & Hq & Hpq)].
    + simpl in Hin. apply elem_of_app in Hin as [Hin|Hin]; [by left|].
      apply list_elem_of_singleton in Hin as ->. right. exists p. split; [left|done].
    + right. exists q. split; [by right|done].
Qed.

Lemma build_Ok fs entries :
  build JSON_parse localeCompare fs = Ok entries ->
  exists files acc,
    discover fs = Ok files /\
    collect JSON_parse files ([], ∅) fs = Ok acc /\
    entries = sortEntries localeCompare acc.1.
Proof.
  unfold build.
  destruct (negb (exists_ ["presets"] fs) && negb (exists_ ["bundles"] fs)); [done|].
  destruct (discover fs) as [files|] eqn:Hd; [|done]. simpl.
  destruct (collect JSON_parse files ([], ∅) fs) as [acc|] eqn:Hc; [|done]. simpl.
  intros [= <-]. by eexists _, _.
Qed.

Lemma sortEntries_perm l : sortEntries localeCompare l ≡ₚ l.
Proof. apply sort_perm. Qed.

Lemma build_entry fs entries e :
  build JSON_parse localeCompare fs = Ok entries -> e ∈ entries ->
  exists p, project JSON_parse p fs = Ok e.
Proof.
  intros (files & acc & _ & Hc & ->)%build_Ok He.
  rewrite sortEntries_perm in He.
  destruct (collect_entries _ _ _ _ Hc e He) as [Hin|(p & _ & Hp)]; [|eauto].
  by apply elem_of_nil in Hin.
Qed.
End BuilderFacts.


(** *** The sort of the entries *)

Section Sorted.
Context {A : Type} (cmp : A -> A -> Z).
Hypothesis cmp_antisym : forall a b, Z.sgn (cmp a b) = (- Z.sgn (cmp b a))%Z.
Hypothesis cmp_trans :
  forall a b c, (cmp a b <= 0 -> cmp b c <= 0 -> cmp a c <= 0)%Z.

Let le (a b : A) : Prop := (cmp a b <= 0)%Z.
Let gt (a b : A) : bool := (0 <? cmp a b)%Z.

Lemma cmp_total a b : ~ le a b -> le b a.
Proof. unfold le. pose proof (cmp_antisym a b). lia. Qed.

Lemma insert_sorted_sorted x l :
  StronglySorted le l -> StronglySorted le (insert_sorted gt x l).
Proof.
  induction 1 as [|y r Hr IH Hy]; simpl.
  - repeat constructor.
  - unfold gt at 1. destruct (Z.ltb_spec 0 (cmp x y)) as [Hgt|Hle].
    + constructor; [done|].
      rewrite insert_sorted_perm. constructor; [|done].
      apply cmp_total. unfold le. lia.
    + constructor; [by constructor|].
      constructor; [done|].
      eapply Forall_impl; [exact Hy|]. intros z Hz. by eapply cmp_trans.
Qed.

Lemma sort_sorted l : StronglySorted le (sort gt l).
Proof.
  induction l as [|x r IH]; simpl; [constructor|].
  by apply insert_sorted_sorted.
Qed.
End Sorted.

Lemma StronglySorted_precedes {A} (R : A -> A -> Prop) l :
  StronglySorted R l ->
  forall i j a b, (i < j)%nat -> l !! i = Some a -> l !! j = Some b -> R a b.
Proof.
  induction 1 as [|x r Hr IH Hx]; intros i j a b Hij Hi Hj; [done|].
  destruct j as [|j]; [lia|]. simpl in Hj.
  destruct i as [|i]; simpl in Hi.
  - injection Hi as <-. rewrite Forall_forall in Hx. apply Hx.
    by eapply list_elem_of_lookup_2.
  - apply (IH i j); [lia|done..].
Qed.

Section EntryOrder.
Variable localeCompare : string -> string -> Z.
Hypothesis lc_antisym :
  forall a b, Z.sgn (localeCompare a b) = (- Z.sgn (localeCompare b a))%Z.
Hypothesis lc_trans :
  forall a b c, (localeCompare a b <= 0 -> localeCompare b c <= 0 ->
                 localeCompare a c <= 0)%Z.

Lemma compareEntries_antisym a b :
  Z.sgn (compareEntries localeCompare a b)
  = (- Z.sgn (compareEntries localeCompare b a))%Z.
Proof.
  unfold compareEntries.
  pose proof (lc_antisym (category a) (category b)).
  pose proof (lc_antisym (id a) (id b)).
  destruct (Z.eqb_spec (localeCompare (category a) (category b)) 0);
    destruct (Z.eqb_spec (localeCompare (category b) (category a)) 0); lia.
Qed.

Lemma compareEntries_trans a b c :
  (compareEntries localeCompare a b <= 0 ->
   compareEntries localeCompare b c <= 0 ->
   compareEntries localeCompare a c <= 0)%Z.
Proof.
  unfold compareEntries.
  pose proof (lc_antisym (category a) (category b)).
  pose proof (lc_antisym (category b) (category c)).
  pose proof (lc_antisym (category a) (category c)).
  pose proof (lc_trans (category a) (category b) (category c)).
  pose proof (lc_trans (category b) (category c) (category a)).
  pose proof (lc_trans (category c) (category a) (category b)).
  pose proof (lc_trans (id a) (id b) (id c)).
  destruct (Z.eqb_spec (localeCompare (category a) (category b)) 0);
    destruct (Z.eqb_spec (localeCompare (category b) (category c)) 0);
    destruct (Z.eqb_spec (localeCompare (category a) (category c)) 0); lia.
Qed.

Lemma sortEntries_sorted l :
  StronglySorted (fun a b => (compareEntries localeCompare a b <= 0)%Z)
    (sortEntries localeCompare l).
Proof.
  apply (sort_sorted (compareEntries localeCompare)).
  - apply compareEntries_antisym.
  - apply compareEntries_trans.
Qed.
End EntryOrder.


(** *** The loop over the scanned files *)

Section LoopFacts.
Variable JSON_parse : string -> option json.
Variable localeCompare : string -> string -> Z.

Lemma project_id p fs e meta :
  project JSON_parse p fs = Ok e -> readJson JSON_parse p fs = Ok meta ->
  asString (get (Some meta) "id") = Some (id e).
Proof.
  intros (m & Hr & H)%project_inv Hm. rewrite Hr in Hm. injection Hm as ->.
  destruct H as [H|H].
  - by apply bundleEntry_Ok in H as (? & _).
  - by apply toIndexEntry_Ok in H as (? & _).
Qed.

(** An id that was seen stops the loop at the next file that has it. *)
Lemma collect_seen_again files : forall acc fs j pj mj s,
  s ∈ acc.2 -> files !! j = Some pj ->
  readJson JSON_parse pj fs = Ok mj -> asString (get (Some mj) "id") = Some s ->
  exists err, collect JSON_parse files acc fs = Throw err.
Proof.
  induction files as [|p r IH]; intros acc fs j pj mj s Hs Hj Hm Hid; [done|].
  simpl. destruct (visit JSON_parse acc p fs) as [acc1|] eqn:Hv; [|by eexists].
  simpl. apply visit_Ok in Hv as (e0 & Hp & Hnew & ->).
  destruct j as [|j]; simpl in Hj.
  - injection Hj as ->. rewrite (project_id _ _ _ _ Hp Hm) in Hid.
    injection Hid as Heq. rewrite Heq in Hnew. done.
  - apply (IH _ fs j pj mj s); [|done..].
    simpl. by apply elem_of_union_r.
Qed.

Lemma collect_duplicate files : forall acc fs i j pi pj mi mj s,
  (i < j)%nat -> files !! i = Some pi -> files !! j = Some pj ->
  readJson JSON_parse pi fs = Ok mi -> readJson JSON_parse pj fs = Ok mj ->
  asString (get (Some mi) "id") = Some s ->
  asString (get (Some mj) "id") = Some s ->
  exists err, collect JSON_parse files acc fs = Throw err.
Proof.
  induction files as [|p r IH]; intros acc fs i j pi pj mi mj s Hij Hi Hj Hmi Hmj Hsi Hsj;
    [done|].
  destruct j as [|j]; [lia|]. simpl in Hj.
  simpl. destruct (visit JSON_parse acc p fs) as [acc1|] eqn:Hv; [|by eexists].
  simpl. apply visit_Ok in Hv as (e0 & Hp & Hnew & ->).
  destruct i as [|i]; simpl in Hi.
  - injection Hi as ->. rewrite (project_id _ _ _ _ Hp Hmi) in Hsi.
    injection Hsi as Heq. subst s.
    apply (collect_seen_again r _ fs j pj mj (id e0)); [|done..].
    simpl. apply elem_of_union_l. by apply elem_of_singleton.
  - apply (IH _ fs i j pi pj mi mj s); [lia|done..].
Qed.

(** When every file projects, the loop ends at the first repeated id. *)
Lemma collect_projected files es fs :
  Forall2 (fun p e => project JSON_parse p fs = Ok e) files es ->
  forall acc seen, (forall x, x ∈ acc.2 <-> x ∈ seen) ->
  match firstRepeat seen (map id es) with
  | Some d =>
      collect JSON_parse files acc fs = Throw (Error ("Duplicate id: " +:+ d))
  | None => exists acc', collect JSON_parse files acc fs = Ok acc'
  end.
Proof.
  induction 1 as [|p e files es Hp _ IH]; intros acc seen Hseen; simpl.
  - by eexists.
  - unfold visit. rewrite Hp. simpl.
    destruct (existsb (String.eqb (id e)) seen) eqn:Hex.
    + apply existsb_exists in Hex as (x & Hx & ->%String.eqb_eq).
      apply list_elem_of_In, Hseen in Hx. by rewrite decide_True.
    + rewrite decide_False.
      * apply IH. intros x. simpl. rewrite elem_of_union, elem_of_singleton,
          elem_of_cons, Hseen. done.
      * intros Hin%Hseen%list_elem_of_In.
        assert (existsb (String.eqb (id e)) seen = true); [|congruence].
        apply existsb_exists. exists (id e). by rewrite String.eqb_refl.
Qed.

Lemma collect_ext files fs fs' :
  (forall p, p ∈ files -> project JSON_parse p fs' = project JSON_parse p fs) ->
  forall acc, collect JSON_parse files acc fs' = collect JSON_parse files acc fs.
Proof.
  induction files as [|p r IH]; intros Hext acc; simpl; [done|].
  unfold visit. rewrite (Hext p) by left.
  destruct (project JSON_parse p fs) as [e|]; [|done]. simpl.
  destruct (decide (id e ∈ acc.2)); [done|]. simpl.
  apply IH. intros q Hq. apply Hext. by right.
Qed.

(** Every scanned path starts at one of the two roots. *)
Lemma discover_roots fs files p :
  discover fs = Ok files -> p ∈ files ->
  exists q, p = "presets" :: q \/ p = "bundles" :: q.
Proof.
  unfold discover.
  destruct (if exists_ ["presets"] fs then _ else _) as [ms|] eqn:Hm; [|done].
  simpl.
  destruct (if exists_ ["bundles"] fs then _ else _) as [bs|] eqn:Hb; [|done].
  simpl. intros [= <-] [Hin|Hin]%elem_of_app.
  - destruct (exists_ ["presets"] fs).
    + destruct (findFiles_below _ _ _ _ _ Hm Hin) as [q ->]. eauto.
    + injection Hm as <-. by apply elem_of_nil in Hin.
  - destruct (exists_ ["bundles"] fs).
    + destruct (findFiles_below _ _ _ _ _ Hb Hin) as [q ->]. eauto.
    + injection Hb as <-. by apply elem_of_nil in Hin.
Qed.

(** Writing [index.json] changes nothing the builder reads. *)
Lemma build_after_write fs content :
  build JSON_parse localeCompare (setEntry "index.json" (File content) fs)
  = build JSON_parse localeCompare fs.
Proof.
  set (fs' := setEntry "index.json" (File content) fs).
  assert (Hl : forall s p, s <> "index.json" -> lookup (s :: p) fs' = lookup (s :: p) fs).
  { intros s p Hs. apply lookup_setEntry_ne. congruence. }
  assert (Hd : discover fs' = discover fs).
  { unfold discover, exists_, findFiles. by rewrite !Hl. }
  unfold build. rewrite Hd. unfold exists_. rewrite !Hl by done.
  destruct (_ && _); [done|].
  destruct (discover fs) as [files|] eqn:Hf; [|done]. simpl.
  rewrite (collect_ext files fs fs'); [done|].
  intros p Hp. destruct (discover_roots _ _ _ Hf Hp) as [q [-> | ->]];
    unfold project, readJson, readFileSync; by rewrite Hl.
Qed.
End LoopFacts.

End IndexFacts.


(** ** Comparison by code units *)

Module OrderFacts.
Import Js Statements.

Lemma ltb_asym a : forall b, ltb a b = true -> ltb b a = false.
Proof.
  induction a as [|x a IH]; intros [|y b]; simpl; try done.
  destruct (N.ltb_spec (code x) (code y)), (N.ltb_spec (code y) (code x));
    try done; try lia.
  apply IH.
Qed.

Lemma ltb_le_trans a : forall b c,
  ltb b a = false -> ltb c b = false -> ltb c a = false.
Proof.
  induction a as [|x a IH]; intros [|y b] [|z c]; simpl; try done.
  destruct (N.ltb_spec (code y) (code x)), (N.ltb_spec (code x) (code y)),
    (N.ltb_spec (code z) (code y)), (N.ltb_spec (code y) (code z)),
    (N.ltb_spec (code z) (code x)), (N.ltb_spec (code x) (code z));
    try done; try lia.
  apply IH.
Qed.

Lemma compareCodeUnits_le a b :
  (compareCodeUnits a b <= 0)%Z <-> ltb b a = false.
Proof.
  unfold compareCodeUnits. destruct (ltb a b) eqn:Hab.
  - apply ltb_asym in Hab. rewrite Hab. split; [done|lia].
  - destruct (ltb b a); split; (done || lia).
Qed.

Lemma compareCodeUnits_antisym a b :
  Z.sgn (compareCodeUnits a b) = (- Z.sgn (compareCodeUnits b a))%Z.
Proof.
  unfold compareCodeUnits. destruct (ltb a b) eqn:Hab.
  - apply ltb_asym in Hab. by rewrite Hab.
  - by destruct (ltb b a).
Qed.

Lemma compareCodeUnits_trans a b c :
  (compareCodeUnits a b <= 0 -> compareCodeUnits b c <= 0 ->
   compareCodeUnits a c <= 0)%Z.
Proof. rewrite !compareCodeUnits_le. intros ? ?. by eapply ltb_le_trans. Qed.

Lemma compareCodeUnits_categories a b :
  a ∈ categories -> b ∈ categories -> compareCodeUnits a b = 0%Z -> a = b.
Proof.
  unfold categories. rewrite !elem_of_cons, !elem_of_nil.
  intros Ha Hb; destruct_or!; subst; try done; vm_compute; discriminate.
Qed.

End OrderFacts.

(** ** Claims on the index builder *)

Module IndexClaims.
Import Js Json Fs IndexBuilder Statements JsFacts FsFacts IndexFacts OrderFacts.

(** C3, as stated, fails: the preset file [presets/bundles/pack.meta.json]
    has none of the three folders in its path and its entry is not in
    the category [other]. *)
Lemma category_other_counterexample :
  exists e,
    build (parseOnly [presetDoc "votesite:pack" "Pack" []]) compareCodeUnits packTree
      = Ok [e] /\
    metaPath e = "presets/bundles/pack.meta.json" /\
    includes (metaPath e) "presets/votesites/" = false /\
    includes (metaPath e) "presets/rewards/" = false /\
    includes (metaPath e) "presets/milestones/" = false /\
    category e <> "other".
Proof. eexists. vm_compute. by repeat split. Qed.

(** C3, amended: the category of the entry of a scanned file comes from
    its relative path alone.  A file whose path ends in [.bundle.json]
    gets [bundles].  For any other file the path, with every backslash
    turned into a slash, is tested for [presets/votesites/],
    [presets/rewards/], [presets/milestones/] and [bundles/] in this
    order; the first that it contains gives [votesites], [rewards],
    [milestones] or [bundles], and a path with none of them gives
    [other]. *)
Theorem category_from_path JSON_parse p fs e :
  project JSON_parse p fs = Ok e ->
  let rel := render p in
  let r := replaceAll "092"%char "/"%char rel in
  (endsWith rel ".bundle.json" = true -> category e = "bundles") /\
  (endsWith rel ".bundle.json" = false ->
     (includes r "presets/votesites/" = true -> category e = "votesites") /\
     (includes r "presets/votesites/" = false ->
      includes r "presets/rewards/" = true -> category e = "rewards") /\
     (includes r "presets/votesites/" = false ->
      includes r "presets/rewards/" = false ->
      includes r "presets/milestones/" = true -> category e = "milestones") /\
     (includes r "presets/votesites/" = false ->
      includes r "presets/rewards/" = false ->
      includes r "presets/milestones/" = false ->
      includes r "bundles/" = true -> category e = "bundles") /\
     (includes r "presets/votesites/" = false ->
      includes r "presets/rewards/" = false ->
      includes r "presets/milestones/" = false ->
      includes r "bundles/" = false -> category e = "other")).
Proof.
  unfold project. destruct (readJson JSON_parse p fs) as [meta|]; [|done].
  simpl. destruct (endsWith (render p) ".bundle.json").
  - intros (_ & -> & _)%bundleEntry_Ok. by split.
  - intros (_ & -> & _)%toIndexEntry_Ok. split; [done|]. intros _.
    unfold inferCategory. repeat split; intros; by simplify_eq/=; repeat case_match.
Qed.

Lemma category_from_path_witness :
  exists e,
    project (parseOnly [presetDoc "votesite:pack" "Pack" []])
      ["presets"; "bundles"; "pack.meta.json"] packTree = Ok e /\
    category e = "bundles".
Proof.
  eexists. split; [vm_compute; reflexivity|].
  refine (proj1 (proj2 (proj2 (proj2 (proj2
    (category_from_path (parseOnly [presetDoc "votesite:pack" "Pack" []])
       ["presets"; "bundles"; "pack.meta.json"] packTree _ _) _)))) _ _ _ _);
    vm_compute; reflexivity.
Defined.

(** The tests are taken in order: a path with two of the folders gets
    the category of the one tested first. *)
Example category_first_match :
  inferCategory "presets/votesites/presets/rewards/x.meta.json" = "votesites".
Proof. reflexivity. Qed.

(** C4, as stated, fails: the domain [www.www.a.com] of a preset gives
    the entry the domain [www.a.com], which is not its own
    www.-stripped form. *)
Lemma domain_www_counterexample :
  exists e d,
    build (parseOnly [presetDoc "votesite:a" "A" ["www.www.a.com"]])
      compareCodeUnits wwwTree = Ok [e] /\
    d ∈ domains e /\
    stripWww (toLowerCase (trim d)) <> d.
Proof.
  eexists _, "www.a.com". vm_compute. split; [reflexivity|].
  split; [left|discriminate].
Qed.

(** C6, amended: in the index the builder computes, an entry that
    precedes another has a smaller category, or the same category and
    an id that is not greater, where smaller and not greater are those
    of the comparator of [sortEntries], [localeCompare] in the locale of
    the run, and not those of the code units.  The comparator is taken
    to be a consistent one that tells the five category names apart. *)
Theorem entries_sorted JSON_parse localeCompare
  (lc_antisym :
     forall a b, Z.sgn (localeCompare a b) = (- Z.sgn (localeCompare b a))%Z)
  (lc_trans :
     forall a b c, (localeCompare a b <= 0 -> localeCompare b c <= 0 ->
                    localeCompare a c <= 0)%Z)
  (lc_categories :
     forall a b, a ∈ categories -> b ∈ categories ->
                 localeCompare a b = 0%Z -> a = b)
  fs entries i j A B :
  build JSON_parse localeCompare fs = Ok entries ->
  (i < j)%nat -> entries !! i = Some A -> entries !! j = Some B ->
  (localeCompare (category A) (category B) < 0)%Z \/
  (category A = category B /\ (localeCompare (id A) (id B) <= 0)%Z).
Proof.
  intros Hb Hij Hi Hj.
  assert (HA : category A ∈ categories).
  { destruct (build_entry _ _ _ _ A Hb) as [p Hp];
      [by eapply list_elem_of_lookup_2|].
    by apply project_normalized in Hp as [_ ?]. }
  assert (HB : category B ∈ categories).
  { destruct (build_entry _ _ _ _ B Hb) as [p Hp];
      [by eapply list_elem_of_lookup_2|].
    by apply project_normalized in Hp as [_ ?]. }
  apply build_Ok in Hb as (files & acc & _ & _ & ->).
  pose proof (StronglySorted_precedes _ _
                (sortEntries_sorted localeCompare lc_antisym lc_trans acc.1)
                i j A B Hij Hi Hj) as Hle.
  simpl in Hle. unfold compareEntries in Hle.
  destruct (Z.eqb_spec (localeCompare (category A) (category B)) 0) as [H0|Hne].
  - right. split; [by apply lc_categories|done].
  - left. lia.
Qed.

(** The round trip the specification gives for a VoteSite document. *)
Example round_trip_scenario :
  toIndexEntry
    (JObj [("id", JStr "votesite:example");
           ("display", JObj [("name", JStr "Example")]);
           ("match", JObj [
              ("domains", JArr [JStr "WWW.Example.com "; JStr "example.com"]);
              ("keywords", JArr [JStr "Foo"; JStr " foo"])])])
    "presets/votesites/example.meta.json"
  = Ok {| id := "votesite:example"; category := "votesites"; name := "Example";
          description := ""; keywords := ["foo"]; domains := ["example.com"];
          metaPath := "presets/votesites/example.meta.json";
          updatedAt := None; verified := false |}.
Proof. vm_compute. reflexivity. Qed.

Lemma main_of_build JSON_parse localeCompare now fs :
  main JSON_parse localeCompare now fs
  = match build JSON_parse localeCompare fs with
    | Throw e => (Throw e, fs)
    | Ok entries =>
        match writeFileSync ["index.json"] (indexText now entries) fs with
        | Ok fs' => (Ok tt, fs')
        | Throw e => (Throw e, fs)
        end
    end.
Proof. reflexivity. Qed.

(** C5: when two of the scanned files hold documents with the same id,
    the run of the builder ends in an error and leaves the file system
    as it was, with no index written and an earlier one untouched.  When
    every scanned file by itself gives an entry, the error is the
    duplicate-id error of the first id that repeats. *)
Theorem duplicate_id_aborts JSON_parse localeCompare now fs files
  i j pi pj mi mj s :
  discover fs = Ok files ->
  (i < j)%nat -> files !! i = Some pi -> files !! j = Some pj ->
  readJson JSON_parse pi fs = Ok mi -> readJson JSON_parse pj fs = Ok mj ->
  asString (get (Some mi) "id") = Some s ->
  asString (get (Some mj) "id") = Some s ->
  exists err,
    main JSON_parse localeCompare now fs = (Throw err, fs) /\
    forall es,
      Forall2 (fun p e => project JSON_parse p fs = Ok e) files es ->
      exists d, firstRepeat [] (map id es) = Some d /\
                err = Error ("Duplicate id: " +:+ d).
Proof.
  intros Hd Hij Hi Hj Hmi Hmj Hsi Hsj.
  destruct (collect_duplicate JSON_parse files ([], ∅) fs i j pi pj mi mj s)
    as [err Herr]; try done.
  rewrite main_of_build. unfold build. rewrite Hd.
  destruct (negb (exists_ ["presets"] fs) && negb (exists_ ["bundles"] fs)) eqn:Hex.
  - exists (Exit 1). split; [done|]. intros es Hes.
    exfalso. revert Hex. unfold discover in Hd.
    destruct (exists_ ["presets"] fs), (exists_ ["bundles"] fs); try done.
    simpl in Hd. injection Hd as <-. done.
  - simpl. rewrite Herr. simpl. exists err. split; [done|].
    intros es Hes.
    pose proof (collect_projected JSON_parse files es fs Hes ([], ∅) []) as Hc.
    destruct (firstRepeat [] (map id es)) as [d|].
    + exists d. split; [done|].
      rewrite Hc in Herr; [congruence|]. intros x. simpl.
      by rewrite elem_of_empty, elem_of_nil.
    + destruct Hc as [acc' Hacc].
      * intros x. simpl. by rewrite elem_of_empty, elem_of_nil.
      * congruence.
Qed.

Lemma duplicate_id_aborts_witness :
  exists err,
    main (parseOnly [presetDoc "votesite:a" "A" []; presetDoc "votesite:a" "B" []])
      compareCodeUnits "2026-01-01T00:00:00.000Z" twinTree = (Throw err, twinTree) /\
    forall es,
      Forall2 (fun p e =>
                 project (parseOnly [presetDoc "votesite:a" "A" [];
                                     presetDoc "votesite:a" "B" []]) p twinTree
                 = Ok e)
        [["presets"; "votesites"; "a.meta.json"];
         ["presets"; "votesites"; "b.meta.json"]] es ->
      exists d, firstRepeat [] (map id es) = Some d /\
                err = Error ("Duplicate id: " +:+ d).
Proof.
  eapply (duplicate_id_aborts _ _ _ twinTree _ 0 1 _ _
            (presetDoc "votesite:a" "A" []) (presetDoc "votesite:a" "B" [])
            "votesite:a");
    first [lia | vm_compute; reflexivity].
Defined.

(** C8: when a run of the builder ends well, a second run right after
    it, at another time, ends well too, and the two index documents
    differ in [generatedAt] alone: they are the text of the same
    entries in the same order. *)
Theorem index_rebuilt_equal JSON_parse localeCompare now1 now2 fs fs1 :
  main JSON_parse localeCompare now1 fs = (Ok tt, fs1) ->
  exists entries fs2,
    main JSON_parse localeCompare now2 fs1 = (Ok tt, fs2) /\
    readFileSync ["index.json"] fs1 = Ok (indexText now1 entries) /\
    readFileSync ["index.json"] fs2 = Ok (indexText now2 entries).
Proof.
  rewrite !main_of_build.
  destruct (build JSON_parse localeCompare fs) as [entries|] eqn:Hb; [|done].
  destruct (writeFileSync ["index.json"] (indexText now1 entries) fs)
    as [fs'|] eqn:Hw; [|done].
  intros [= <-]. apply writeFileSync_root in Hw as ->.
  rewrite build_after_write, Hb, writeFileSync_root_again.
  eexists entries, _. split; [done|].
  by rewrite !readFileSync_root_written.
Qed.

Lemma index_rebuilt_equal_witness :
  let parse := parseOnly [presetDoc "votesite:b" "B" []; presetDoc "votesite:a" "A" []] in
  exists fs1 entries fs2,
    main parse compareCodeUnits "2026-01-01T00:00:00.000Z" twoTree = (Ok tt, fs1) /\
    main parse compareCodeUnits "2026-01-02T00:00:00.000Z" fs1 = (Ok tt, fs2) /\
    readFileSync ["index.json"] fs1
      = Ok (indexText "2026-01-01T00:00:00.000Z" entries) /\
    readFileSync ["index.json"] fs2
      = Ok (indexText "2026-01-02T00:00:00.000Z" entries).
Proof.
  intros parse. eexists.
  assert (H : main parse compareCodeUnits "2026-01-01T00:00:00.000Z" twoTree
              = (Ok tt, snd (main parse compareCodeUnits
                               "2026-01-01T00:00:00.000Z" twoTree)))
    by (vm_compute; reflexivity).
  destruct (index_rebuilt_equal parse compareCodeUnits
              "2026-01-01T00:00:00.000Z" "2026-01-02T00:00:00.000Z" twoTree _ H)
    as (entries & fs2 & H2 & H3 & H4).
  exists entries, fs2. by repeat split.
Defined.

End IndexClaims.

(** ** The form parser *)

Module ParserFacts.
Import Js Json Fs Generator Statements JsFacts.

Lemma flush_extend_nil st : extend st [] = st.
Proof.
  unfold extend. destruct st as [o [k|] b]; simpl; [|done]. by rewrite app_nil_r.
Qed.

(** The loop over the lines makes the assignments of the headers. *)
Lemma loop_out ls : forall st,
  out (flush (fold_left line ls st))
  = assignAll (rawSections ls) (out (flush (extend st (bodyLines ls)))).
Proof.
  induction ls as [|ln r IH]; intros st; cbn [fold_left rawSections bodyLines].
  - by rewrite flush_extend_nil.
  - rewrite IH. unfold line. destruct (matchHeader ln) as [m1|] eqn:Hm.
    + rewrite flush_extend_nil. unfold extend at 1. simpl. done.
    + destruct st as [o [k|] b]; simpl; [|done].
      unfold extend. simpl. by rewrite <- app_assoc.
Qed.

Lemma assign_lookup k' v o k :
  k <> "__proto__" ->
  assign k' v o !! k = if String.eqb k' k then Some v else o !! k.
Proof.
  intros Hk. unfold assign. destruct (String.eqb_spec k' k) as [->|Hne].
  - rewrite decide_False by done. apply lookup_insert_eq.
  - destruct (decide (k' = "__proto__")); [done|]. by apply lookup_insert_ne.
Qed.

Lemma assignAll_lookup secs : forall o k,
  k <> "__proto__" ->
  assignAll secs o !! k
  = match lastField k secs with
    | Some b => Some (trim (join nl b))
    | None => o !! k
    end.
Proof.
  induction secs as [|[k' b] r IH]; intros o k Hk; simpl; [done|].
  unfold assignAll in *. rewrite IH by done.
  destruct (lastField k r); [done|]. simpl. rewrite assign_lookup by done.
  by destruct (String.eqb k' k).
Qed.

Lemma lastField_map {V W} (f : V -> W) k (secs : list (string * V)) :
  lastField k (map (fun s => (fst s, f (snd s))) secs) = f <$> lastField k secs.
Proof.
  induction secs as [|[k' v] r IH]; simpl; [done|].
  rewrite IH. destruct (lastField k r); simpl; [done|].
  by destruct (String.eqb k' k).
Qed.

Lemma rawSections_none ls :
  Forall (fun ln => matchHeader ln = None) ls -> rawSections ls = [].
Proof. induction 1 as [|ln r Hln _ IH]; simpl; [done|]. by rewrite Hln. Qed.

Lemma parseIssueForm_out body :
  parseIssueForm body = noResponse <$> assignAll (rawSections (splitLines body)) ∅.
Proof.
  unfold parseIssueForm. rewrite loop_out. done.
Qed.

End ParserFacts.

Module ParserClaims.
Import Js Json Fs Generator Statements JsFacts ParserFacts.

(** C9, as stated, fails: of two headers with one field name the first
    has a body that the mapping does not give for that name. *)
Lemma header_twice_counterexample :
  ("Name", "first") ∈ sectionsOf (splitLines twiceForm) /\
  parseIssueForm twiceForm !! "Name" <> Some "first".
Proof. vm_compute. split; [left|discriminate]. Qed.

(** C9, amended: the parser is a total function of the text.  For every
    field name other than [__proto__], the mapping holds under the name
    the body of the last header with that trimmed name (the lines up to
    the next header, joined by a newline and trimmed, and empty when
    that reads [no response] in any case), and nothing when no header
    has the name; a text without header lines gives the empty mapping. *)
Theorem parseIssueForm_fields body :
  (forall k, k <> "__proto__" ->
     parseIssueForm body !! k = lastField k (sectionsOf (splitLines body))) /\
  (Forall (fun ln => matchHeader ln = None) (splitLines body) ->
     parseIssueForm body = ∅).
Proof.
  rewrite parseIssueForm_out. split.
  - intros k Hk. rewrite lookup_fmap, assignAll_lookup by done.
    unfold sectionsOf, bodyText. rewrite lookup_empty.
    rewrite (lastField_map (fun b => noResponse (trim (join nl b)))).
    by destruct (lastField k _).
  - intros H. rewrite (rawSections_none _ H). simpl. apply fmap_empty.
Qed.

Lemma parseIssueForm_fields_witness :
  parseIssueForm twiceForm !! "Name" = Some "second" /\
  parseIssueForm "no header here" = ∅.
Proof.
  split.
  - rewrite (proj1 (parseIssueForm_fields twiceForm) "Name"); [|discriminate].
    vm_compute. reflexivity.
  - apply (proj2 (parseIssueForm_fields "no header here")).
    vm_compute. repeat constructor.
Defined.

(** The key [__proto__] is the one the mapping cannot hold. *)
Example parseIssueForm_proto :
  parseIssueForm ("### __proto__" +:+ nl +:+ "x") = ∅.
Proof. vm_compute. reflexivity. Qed.

End ParserClaims.

(** ** The generator *)

Module GeneratorFacts.
Import Js Json Fs Generator Statements JsFacts FsFacts.

Lemma setEntry_same s n d : entry s d = Some n -> setEntry s n d = d.
Proof.
  induction d as [|[k v] r IH]; simpl; [done|].
  destruct (String.eqb_spec k s) as [->|Hne].
  - by intros [= ->].
  - intros H. by rewrite IH.
Qed.

(** [mkdirp] leaves a directory that is there as it is. *)
Lemma mkdirp_existing p : forall d es,
  lookup p d = Some (Dir es) -> mkdirp p d = Ok d.
Proof.
  induction p as [|s p' IH]; intros d es; simpl; [done|].
  destruct p' as [|s' p''].
  - destruct (entry s d) as [[c|e]|] eqn:He; try done.
    intros _. simpl. by rewrite setEntry_same.
  - destruct (entry s d) as [[c|e]|] eqn:He; try done.
    intros H. rewrite (IH e es H). simpl. by rewrite setEntry_same.
Qed.

Lemma lookup_dirname p : forall d c,
  lookup p d = Some (File c) -> exists es, lookup (dirname p) d = Some (Dir es).
Proof.
  induction p as [|s p' IH]; intros d c; simpl; [done|].
  destruct p' as [|s' p''].
  - intros _. by eexists.
  - destruct (entry s d) as [[c'|e]|] eqn:He; try done.
    intros H. destruct (IH e c H) as [es Hes]. exists es.
    change (dirname (s :: s' :: p'')) with (s :: dirname (s' :: p'')).
    destruct (dirname (s' :: p'')) as [|s0 q]; simpl; rewrite He; [|exact Hes].
    simpl in Hes. by injection Hes as <-.
Qed.

(** [writeFileSync] replaces a file that is there. *)
Lemma writeFileSync_existing p : forall d c content,
  lookup p d = Some (File c) ->
  exists d', writeFileSync p content d = Ok d' /\ lookup p d' = Some (File content).
Proof.
  induction p as [|s p' IH]; intros d c content; simpl; [done|].
  destruct p' as [|s' p''].
  - intros ->. eexists. split; [done|]. by rewrite entry_setEntry_eq.
  - destruct (entry s d) as [[c'|e]|] eqn:He; try done.
    intros H. destruct (IH e c content H) as (d' & -> & Hd').
    simpl. eexists. split; [done|]. by rewrite entry_setEntry_eq.
Qed.

Lemma existsb_removelast {A} (f : A -> bool) l :
  existsb f l = false -> existsb f (removelast l) = false.
Proof.
  induction l as [|x [|y r] IH]; simpl in *; try done.
  intros [-> H]%orb_false_elim. by rewrite IH.
Qed.

(** [writeFile] on the path of a file that is there replaces its
    content, whatever its comment says. *)
Lemma writeFile_replaces p content old fs :
  lookup p fs = Some (File old) -> existsb hasNul p = false ->
  exists fs', writeFile p content fs = (Ok tt, fs') /\
              lookup p fs' = Some (File content).
Proof.
  intros Hp Hnul. unfold writeFile.
  rewrite (existsb_removelast _ _ Hnul : existsb hasNul (dirname p) = false).
  destruct (lookup_dirname _ _ _ Hp) as [es Hes].
  rewrite (mkdirp_existing _ _ _ Hes), Hnul.
  destruct (writeFileSync_existing p fs old content Hp) as (d' & -> & Hd').
  by exists d'.
Qed.

Section RunFacts.
Variable JSON_parse : string -> option json.
Variable localeCompare : string -> string -> Z.
Variable now : string.

(** The rebuild of the index touches [index.json] alone. *)
Lemma rebuildIndex_lookup fs s p :
  s <> "index.json" ->
  lookup (s :: p) (rebuildIndex JSON_parse localeCompare now fs).2
  = lookup (s :: p) fs.
Proof.
  intros Hs. unfold rebuildIndex, IndexBuilder.main.
  destruct (IndexBuilder.build JSON_parse localeCompare fs) as [es|]; [|done].
  destruct (writeFileSync ["index.json"] _ fs) as [fs'|] eqn:Hw; [|done].
  apply writeFileSync_root in Hw as ->. simpl.
  by rewrite entry_setEntry_ne.
Qed.
End RunFacts.

End GeneratorFacts.

Module GeneratorClaims.
Import Js Json Fs Generator Statements JsFacts FsFacts GeneratorFacts.

(** C1 fails on the code: the submission [exampleSite], run on a
    repository that has [presets/votesites/example_com.meta.json]
    already, ends with the new document in that file, whatever the
    rebuild of the index does after the write. *)
Theorem generator_overwrites JSON_parse localeCompare now :
  exists p meta,
    votesite (parseIssueForm (orEmpty (ISSUE_BODY exampleSite))) = Ok (p, meta) /\
    lookup p exampleRepo = Some (File "kept") /\
    lookup p (main JSON_parse localeCompare now exampleSite exampleRepo).2
      = Some (File (stringify meta +:+ nl)) /\
    stringify meta +:+ nl <> "kept".
Proof.
  eexists _, _. split; [vm_compute; reflexivity|].
  split; [reflexivity|]. split; [|by vm_compute].
  unfold main.
  replace (negb (truthy (ISSUE_NUMBER exampleSite))) with false by reflexivity.
  replace (String.eqb (kindOf exampleSite) "votesite") with true by reflexivity.
  match goal with
  | |- context [votesite ?f] =>
      let r := eval vm_compute in (votesite f) in
      replace (votesite f) with r by (vm_compute; reflexivity)
  end.
  match goal with
  | |- context [writeFile ?p ?c ?fs] =>
      let r := eval vm_compute in (writeFile p c fs) in
      replace (writeFile p c fs) with r by (vm_compute; reflexivity)
  end.
  rewrite rebuildIndex_lookup by discriminate. vm_compute. reflexivity.
Qed.

(** The VoteSite submission the specification gives: the path, the
    domains and the default of the vote URL. *)
Example generator_scenario :
  exists meta,
    votesite (parseIssueForm (form [
      ("Domain (no protocol)", "example.com");
      ("Preset ID", "votesite:example");
      ("VoteSite key (siteKey)", "Example");
      ("Display name (displayName)", "Example Site");
      ("ServiceSite (required)", "ExampleService")]))
    = Ok (["presets"; "votesites"; "example_com.meta.json"], meta) /\
    get (get (Some meta) "match") "domains" = Some (JArr [JStr "example.com"]) /\
    get (get (get (Some meta) "placeholders") "voteURL") "default"
    = Some (JStr "ADD_VOTE_URL_LATER").
Proof. eexists. vm_compute. by repeat split. Qed.

(** The fragment of a Reward submission of the type [commands]. *)
Example reward_fragment :
  exists meta,
    reward (parseIssueForm (form [
      ("Preset ID", "reward:vote/daily");
      ("Display name", "Daily");
      ("Reward type", "Commands");
      ("Default lines (one per line)", "give %player% diamond 1")]))
    = Ok ((["presets"; "rewards"; "reward_vote_daily.meta.json"], meta),
          (["presets"; "rewards"; "reward_vote_daily.rewardblock.yml"],
           "Commands:" +:+ nl +:+ "<commandsBlock>" +:+ nl)).
Proof. eexists. vm_compute. reflexivity. Qed.

(** C2, as stated, fails: a vote delay given in words is the default
    of the slot [voteDelay], though it is neither of the integer nor of
    the boolean form nor empty. *)
Lemma voteDelay_counterexample :
  exists p meta,
    votesite (parseIssueForm (orEmpty (ISSUE_BODY exampleSite))) = Ok (p, meta) /\
    get (get (get (Some meta) "placeholders") "voteDelay") "default"
      = Some (JStr "soon") /\
    isIntStr "soon" = false /\ isBoolStr "soon" = false.
Proof. eexists _, _. vm_compute. by repeat split. Qed.

(** C2, amended: the placeholder map of a VoteSite document has the
    eight slots [siteKey], [displayName], [serviceSite], [voteURL],
    [voteDelay], [waitUntilVoteDelay], [voteDelayDaily] and
    [voteDelayDailyHour], in this order.  The default of [voteDelay] is
    the trimmed value supplied, whatever its form.  The defaults of
    [waitUntilVoteDelay] and [voteDelayDaily] are the trimmed value in
    lower case when that reads [true] or [false], and empty otherwise.
    The default of [voteDelayDailyHour] is the trimmed value when it is
    a non-empty run of decimal digits, and empty otherwise. *)
Theorem votesite_placeholders fields p meta :
  votesite fields = Ok (p, meta) ->
  exists slots,
    get (Some meta) "placeholders" = Some (JObj slots) /\
    map fst slots = votesiteSlots /\
    let supplied k := trim (orEmpty (fields !! k)) in
    let default k := get (prop k slots) "default" in
    let boolForm v d :=
      ((toLowerCase v = "true" \/ toLowerCase v = "false") /\ d = toLowerCase v)
      \/ (toLowerCase v <> "true" /\ toLowerCase v <> "false" /\ d = "") in
    let intForm v d :=
      (v <> "" /\ allDigits v = true /\ d = v)
      \/ ((v = "" \/ allDigits v = false) /\ d = "") in
    default "voteDelay" = Some (JStr (supplied "VoteDelay (optional)")) /\
    (exists d, default "waitUntilVoteDelay" = Some (JStr d) /\
               boolForm (supplied "WaitUntilVoteDelay (optional)") d) /\
    (exists d, default "voteDelayDaily" = Some (JStr d) /\
               boolForm (supplied "VoteDelayDaily (optional)") d) /\
    (exists d, default "voteDelayDailyHour" = Some (JStr d) /\
               intForm (supplied "VoteDelayDailyHour (optional)") d).
Proof.
  unfold votesite.
  repeat match goal with
         | |- context [if ?b then Throw _ else _] => destruct b; [done|]
         end.
  intros [= <- <-]. eexists. split; [reflexivity|]. split; [reflexivity|].
  assert (Hbool : forall v,
    ((toLowerCase (trim v) = "true" \/ toLowerCase (trim v) = "false") /\
     (if isBoolStr (trim v) then toLowerCase (trim v) else "") = toLowerCase (trim v))
    \/ (toLowerCase (trim v) <> "true" /\ toLowerCase (trim v) <> "false" /\
        (if isBoolStr (trim v) then toLowerCase (trim v) else "") = "")).
  { intros v. unfold isBoolStr. rewrite trim_idem.
    destruct (String.eqb_spec (toLowerCase (trim v)) "true") as [->|H1];
      [left; by split; [left|]|].
    destruct (String.eqb_spec (toLowerCase (trim v)) "false") as [->|H2];
      [left; by split; [right|]|].
    right. by repeat split. }
  cbv zeta. simpl. unfold trimmed, field. split; [done|].
  split; [eexists; split; [done|apply Hbool]|].
  split; [eexists; split; [done|apply Hbool]|].
  eexists. split; [done|]. unfold isIntStr. rewrite trim_idem.
  set (v := trim _).
  destruct (isEmpty v) eqn:He; simpl.
  - right. split; [|done]. left. by apply isEmpty_true.
  - destruct (allDigits v) eqn:Hd.
    + left. split; [|done]. intros Hv. by rewrite Hv in He.
    + right. split; [by right|done].
Qed.

Lemma votesite_placeholders_witness :
  exists slots,
    map fst slots = votesiteSlots /\
    get (prop "voteDelay" slots) "default" = Some (JStr "soon") /\
    get (prop "waitUntilVoteDelay" slots) "default" = Some (JStr "").
Proof.
  destruct (votesite (parseIssueForm (orEmpty (ISSUE_BODY exampleSite))))
    as [[p meta]|] eqn:Hv; [|by vm_compute in Hv].
  destruct (votesite_placeholders _ p meta Hv)
    as (slots & Hs & Hn & Hd & (d & Hw & Hwd) & _).
  exists slots. split; [done|]. split.
  - rewrite Hd. vm_compute. reflexivity.
  - rewrite Hw. destruct Hwd as [[[H|H] _]|(_ & _ & ->)]; [| |done];
      vm_compute in H; discriminate.
Defined.

(** C7: a Reward submission whose type, trimmed and in lower case, is
    neither [commands] nor [messages] ends in a validation error and
    leaves the file system as it was; when the issue number, the preset
    id and the display name are in order, the error is the one on the
    reward type. *)
Theorem reward_type_rejected JSON_parse localeCompare now e fs :
  let fields := parseIssueForm (orEmpty (ISSUE_BODY e)) in
  let rewardType := toLowerCase (trim (orEmpty (fields !! "Reward type"))) in
  kindOf e <> "votesite" ->
  rewardType <> "commands" -> rewardType <> "messages" ->
  exists msg,
    main JSON_parse localeCompare now e fs = (Throw (Error msg), fs) /\
    msg ∈ rewardTypeErrors /\
    (truthy (ISSUE_NUMBER e) = true ->
     startsWith (trim (orEmpty (fields !! "Preset ID"))) "reward:" = true ->
     trim (orEmpty (fields !! "Display name")) <> "" ->
     msg = "Reward type must be commands or messages").
Proof.
  intros fields rewardType Hkind Hc Hm. unfold main, rewardTypeErrors.
  destruct (truthy (ISSUE_NUMBER e)); simpl.
  2: { eexists. split; [done|]. split; [|done]. repeat constructor. }
  destruct (String.eqb_spec (kindOf e) "votesite") as [|_]; [done|].
  unfold reward, trimmed, field. fold fields.
  destruct (startsWith (trim (orEmpty (fields !! "Preset ID"))) "reward:"); simpl.
  2: { eexists. split; [done|]. split; [|done]. repeat constructor. }
  destruct (isEmpty (trim (orEmpty (fields !! "Display name")))) eqn:Hn.
  { eexists. split; [done|]. split; [repeat constructor|].
    intros _ _ Hne. by apply isEmpty_true in Hn. }
  fold rewardType.
  destruct (String.eqb_spec rewardType "commands") as [|_]; [done|].
  destruct (String.eqb_spec rewardType "messages") as [|_]; [done|].
  simpl. eexists. split; [done|]. split; [repeat constructor|done].
Qed.

Lemma reward_type_rejected_witness :
  main (fun _ => None) compareCodeUnits "2026-01-01T00:00:00.000Z" musicReward []
  = (Throw (Error "Reward type must be commands or messages"), []).
Proof.
  destruct (reward_type_rejected (fun _ => None) compareCodeUnits
              "2026-01-01T00:00:00.000Z" musicReward [])
    as (msg & -> & _ & Hmsg); try (vm_compute; discriminate).
  rewrite Hmsg; [reflexivity|vm_compute; reflexivity..|vm_compute; discriminate].
Defined.

(** C10: two runs that differ in the issue number alone, both with a
    number that is not empty, end alike and leave the same file system:
    the same files with the same contents at the same paths. *)
Theorem issue_number_irrelevant JSON_parse localeCompare now e fs n1 n2 :
  n1 <> "" -> n2 <> "" ->
  main JSON_parse localeCompare now (withIssueNumber n1 e) fs
  = main JSON_parse localeCompare now (withIssueNumber n2 e) fs.
Proof.
  intros H1 H2. unfold main, kindOf. simpl.
  destruct n1; [done|]. destruct n2; [done|]. reflexivity.
Qed.

Lemma issue_number_irrelevant_witness :
  main (fun _ => None) compareCodeUnits "2026-01-01T00:00:00.000Z"
    (withIssueNumber "7" exampleSite) exampleRepo
  = main (fun _ => None) compareCodeUnits "2026-01-01T00:00:00.000Z"
      (withIssueNumber "8" exampleSite) exampleRepo.
Proof.
  apply (issue_number_irrelevant (fun _ => None) compareCodeUnits
           "2026-01-01T00:00:00.000Z" exampleSite exampleRepo "7" "8");
    discriminate.
Defined.

End GeneratorClaims.

(** * Further properties *)

Set Warnings "-clear-no-such-hyp".


(** ** More on the form parser *)

Module ParserExtras.
Import Js Json Fs Generator Statements JsFacts ParserFacts.

Lemma rawSections_key ls k b :
  (k, b) ∈ rawSections ls -> exists m1, k = trim m1.
Proof.
  induction ls as [|ln r IH]; simpl; [by intros ?%elem_of_nil|].
  destruct (matchHeader ln) as [m1|]; [|done].
  intros [[= -> _]|H]%elem_of_cons; eauto.
Qed.

Lemma assign_lookup_Some k' v' o k v :
  assign k' v' o !! k = Some v ->
  (k = k' /\ v = v' /\ k <> "__proto__") \/ o !! k = Some v.
Proof.
  unfold assign. destruct (decide (k' = "__proto__")) as [->|Hp]; [by right|].
  destruct (decide (k' = k)) as [->|Hne].
  - rewrite lookup_insert_eq. intros [= <-]. by left.
  - rewrite lookup_insert_ne by done. by right.
Qed.

(** Where a value of the mapping comes from. *)
Lemma assignAll_lookup_Some secs : forall o k v,
  assignAll secs o !! k = Some v ->
  o !! k = Some v \/
  (k <> "__proto__" /\ exists b, (k, b) ∈ secs /\ v = trim (join nl b)).
Proof.
  induction secs as [|[k' b'] r IH]; intros o k v; simpl; [by left|].
  intros H. apply IH in H as [H|(Hk & b & Hb & ->)].
  - apply assign_lookup_Some in H as [(-> & -> & Hk)|H]; [|by left].
    right. split; [done|]. exists b'. split; [left|done].
  - right. split; [done|]. exists b. split; [by right|done].
Qed.

(** X1: every key and every value of the mapping is trimmed, no value
    reads [no response] in any case, and [__proto__] is no key. *)
Theorem parseIssueForm_trimmed body k v :
  parseIssueForm body !! k = Some v ->
  trim k = k /\ trim v = v /\
  toLowerCase v <> "no response" /\ k <> "__proto__".
Proof.
  rewrite parseIssueForm_out, lookup_fmap.
  destruct (assignAll _ _ !! k) as [v0|] eqn:H0; [|done].
  simpl. intros [= <-].
  apply assignAll_lookup_Some in H0 as [H0|(Hk & b & Hb & ->)];
    [by rewrite lookup_empty in H0|].
  apply rawSections_key in Hb as [m1 ->].
  split; [apply trim_idem|]. unfold noResponse.
  destruct (String.eqb_spec (toLowerCase (trim (trim (join nl b)))) "no response")
    as [He|Hne].
  - by repeat split.
  - rewrite trim_idem in Hne. split; [apply trim_idem|]. by split.
Qed.

Lemma parseIssueForm_trimmed_witness :
  trim "Name" = "Name" /\ trim "second" = "second" /\
  toLowerCase "second" <> "no response" /\ "Name" <> "__proto__".
Proof.
  apply (parseIssueForm_trimmed twiceForm "Name" "second").
  vm_compute. reflexivity.
Defined.

Lemma startsWith_empty s : startsWith s "" = true.
Proof. by destruct s. Qed.

Lemma includes_char_cons x c r :
  includes (String c r) (String x "")
  = if ascii_dec x c then true else includes r (String x "").
Proof.
  cbn [includes startsWith]. destruct (ascii_dec x c); [|done].
  by rewrite startsWith_empty.
Qed.

Lemma code_inj c n : code c = n -> c = ascii_of_N n.
Proof. intros <-. unfold code. by rewrite ascii_N_embedding. Qed.

Lemma splitLines_crlf s :
  includes s cr = false -> splitLines (crlf s) = splitLines s.
Proof.
  induction s as [|c r IH]; [done|].
  unfold cr. rewrite includes_char_cons.
  destruct (ascii_dec "013" c) as [|Hc]; [done|]. intros Hr.
  specialize (IH Hr). cbn [crlf].
  destruct (N.eqb_spec (code c) 10) as [E|E].
  - apply code_inj in E. subst c. cbn [splitLines].
    simpl. by rewrite IH, startsWith_empty.
  - cbn [splitLines]. destruct (N.eqb_spec (code c) 10); [done|].
    destruct (N.eqb_spec (code c) 13) as [E13|_].
    + apply code_inj in E13. by subst c.
    + cbn [andb]. by rewrite IH.
Qed.

(** X2: a text without carriage returns parses to the same mapping when
    its line feeds are turned into carriage return and line feed. *)
Theorem parseIssueForm_crlf body :
  includes body cr = false ->
  parseIssueForm (crlf body) = parseIssueForm body.
Proof. intros H. unfold parseIssueForm. by rewrite splitLines_crlf. Qed.

Lemma parseIssueForm_crlf_witness :
  parseIssueForm (crlf twiceForm) = parseIssueForm twiceForm.
Proof. apply parseIssueForm_crlf. vm_compute. reflexivity. Defined.

End ParserExtras.

(** ** More on strings *)

Module StringExtras.
Import Js Json Fs Generator Statements JsFacts ParserExtras.

Lemma includes_char_empty c : includes "" (String c "") = false.
Proof. reflexivity. Qed.

Lemma includes_char_app c s t :
  includes (s +:+ t) (String c "")
  = includes s (String c "") || includes t (String c "").
Proof.
  induction s as [|x r IH].
  - change ("" +:+ t) with t. by rewrite includes_char_empty.
  - change (String x r +:+ t) with (String x (r +:+ t)).
    rewrite !includes_char_cons, IH. by destruct (ascii_dec c x).
Qed.

Lemma replaceAll_gone a b s :
  a <> b -> includes (replaceAll a b s) (String a "") = false.
Proof.
  intros Hab. induction s as [|c r IH]; [done|].
  cbn [replaceAll]. rewrite includes_char_cons, IH.
  destruct (ascii_dec c a) as [->|Hc]; destruct (ascii_dec a _); congruence.
Qed.

Lemma replaceAll_keeps_out a b x s :
  b <> x -> includes s (String x "") = false ->
  includes (replaceAll a b s) (String x "") = false.
Proof.
  intros Hb. induction s as [|c r IH]; [done|].
  cbn [replaceAll]. rewrite !includes_char_cons.
  destruct (ascii_dec x c) as [->|Hc]; [done|]. intros Hr.
  rewrite (IH Hr). destruct (ascii_dec c a); destruct (ascii_dec x _); congruence.
Qed.

Lemma split_no_sep sep s :
  includes s (String sep "") = false -> split sep s = [s].
Proof.
  induction s as [|c r IH]; [done|].
  rewrite includes_char_cons. destruct (ascii_dec sep c) as [|Hc]; [done|].
  intros Hr. cbn [split]. rewrite (IH Hr).
  destruct (ascii_dec c sep); congruence.
Qed.

(** The pieces of a split hold no separator and no character the text
    does not hold. *)
Lemma split_piece sep s x :
  x ∈ split sep s ->
  includes x (String sep "") = false /\
  forall c, includes s (String c "") = false -> includes x (String c "") = false.
Proof.
  revert x. induction s as [|c r IH]; intros x.
  - intros ->%list_elem_of_singleton. done.
  - cbn [split]. destruct (ascii_dec c sep) as [->|Hc].
    + intros [->|Hx]%elem_of_cons; [done|].
      destruct (IH _ Hx) as [H1 H2]. split; [done|].
      intros c. rewrite includes_char_cons. destruct (ascii_dec c sep); [done|].
      apply H2.
    + destruct (split sep r) as [|y ys] eqn:Hs.
      * intros ->%list_elem_of_singleton. split.
        -- rewrite includes_char_cons. destruct (ascii_dec sep c); [congruence|done].
        -- intros c'. rewrite !includes_char_cons. by destruct (ascii_dec c' c).
      * intros [->|Hx]%elem_of_cons.
        -- destruct (IH y) as [H1 H2]; [left|]. split.
           ++ rewrite includes_char_cons, H1. destruct (ascii_dec sep c); congruence.
           ++ intros c'. rewrite !includes_char_cons.
              destruct (ascii_dec c' c); [done|]. apply H2.
        -- destruct (IH x) as [H1 H2]; [by right|]. split; [done|].
           intros c'. rewrite includes_char_cons.
           destruct (ascii_dec c' c); [done|]. apply H2.
Qed.

(** A tail without separator joins the last piece. *)
Lemma split_app_tail sep s t :
  includes t (String sep "") = false ->
  exists init lst,
    split sep s = init ++ [lst] /\ split sep (s +:+ t) = init ++ [lst +:+ t].
Proof.
  intros Ht. induction s as [|c r (init & lst & Hr & Hrt)].
  - exists [], "". split; [done|]. simpl. by apply split_no_sep.
  - change (String c r +:+ t) with (String c (r +:+ t)). cbn [split].
    rewrite Hr, Hrt. destruct (ascii_dec c sep).
    + by exists ("" :: init), lst.
    + destruct init as [|x xs]; simpl.
      * by exists [], (String c lst).
      * by exists (String c x :: xs), lst.
Qed.

Lemma length_append s t :
  String.length (s +:+ t) = (String.length s + String.length t)%nat.
Proof. induction s as [|c r IH]; simpl; [done|]. by rewrite IH. Qed.

Lemma drop_append s t : drop (String.length s) (s +:+ t) = t.
Proof. induction s as [|c r IH]; simpl; [by destruct t|done]. Qed.

Lemma endsWith_append s t : endsWith (s +:+ t) t = true.
Proof.
  unfold endsWith. rewrite length_append.
  replace (String.length s + String.length t - String.length t)%nat
    with (String.length s) by lia.
  rewrite drop_append, String.eqb_refl.
  by destruct (Nat.leb_spec (String.length t) (String.length s + String.length t)); [|lia].
Qed.

Lemma lowered_drop n s : toLowerCase s = s -> toLowerCase (drop n s) = drop n s.
Proof. intros H. by rewrite toLowerCase_drop, H. Qed.

(** What [trim] leaves starts with no whitespace. *)
Lemma trim_head s c r : trim s = String c r -> isWhiteSpace c = false.
Proof.
  unfold trim. induction s as [|x t IH]; simpl; [done|].
  destruct (isWhiteSpace x) eqn:Hx; [done|].
  simpl. rewrite Hx. simpl. by intros [= <- _].
Qed.

Lemma trim_append_nonempty s t : trim s <> "" -> trim (trim s +:+ t) <> "".
Proof.
  destruct (trim s) as [|c r] eqn:Hs; [done|]. intros _.
  apply trim_head in Hs. unfold trim. simpl. rewrite Hs. simpl. by rewrite Hs.
Qed.

Lemma startsWith_append p t : startsWith (p +:+ t) p = true.
Proof.
  induction p as [|c r IH]; [apply startsWith_empty|].
  change (String c r +:+ t) with (String c (r +:+ t)). cbn [startsWith].
  destruct (ascii_dec c c); [apply IH|done].
Qed.

Lemma includes_startsWith s p : startsWith s p = true -> includes s p = true.
Proof. intros H. destruct s; cbn [includes]; by rewrite H. Qed.

Lemma replaceAll_append a b s t :
  replaceAll a b (s +:+ t) = replaceAll a b s +:+ replaceAll a b t.
Proof.
  induction s as [|c r IH]; [done|].
  change (String c r +:+ t) with (String c (r +:+ t)). cbn [replaceAll].
  by rewrite IH.
Qed.

Lemma replaceAll_absent a b s :
  includes s (String a "") = false -> replaceAll a b s = s.
Proof.
  induction s as [|c r IH]; [done|]. rewrite includes_char_cons.
  destruct (ascii_dec a c) as [|Hc]; [done|]. intros Hr.
  cbn [replaceAll]. rewrite (IH Hr). destruct (ascii_dec c a); congruence.
Qed.

Lemma startsWith_needs_char pat : forall s c,
  startsWith s pat = true -> includes pat (String c "") = true ->
  includes s (String c "") = true.
Proof.
  induction pat as [|a p' IH]; intros s c; [done|].
  destruct s as [|b s']; [done|]. cbn [startsWith].
  destruct (ascii_dec a b) as [<-|]; [|done].
  rewrite !includes_char_cons. destruct (ascii_dec c a); [done|]. apply IH.
Qed.

(** A text that holds a pattern holds every character of it. *)
Lemma includes_needs_char s pat c :
  includes s pat = true -> includes pat (String c "") = true ->
  includes s (String c "") = true.
Proof.
  intros Hs Hc. induction s as [|b r IH].
  - cbn [includes] in Hs. rewrite orb_false_r in Hs.
    by apply (startsWith_needs_char pat).
  - cbn [includes] in Hs. apply orb_prop in Hs as [Hs|Hs].
    + by apply (startsWith_needs_char pat).
    + rewrite includes_char_cons. destruct (ascii_dec c b); [done|]. by apply IH.
Qed.

End StringExtras.

(** ** More on the generator *)

Module GeneratorExtras.
Import Js Json Fs Generator Statements JsFacts FsFacts GeneratorFacts
  ParserExtras StringExtras.

Lemma stripProtocol_keeps_lower s :
  toLowerCase s = s -> toLowerCase (stripProtocol s) = stripProtocol s.
Proof.
  intros H. unfold stripProtocol.
  repeat case_match; auto using lowered_drop.
Qed.

Lemma stripWww_keeps_lower s :
  toLowerCase s = s -> toLowerCase (stripWww s) = stripWww s.
Proof. intros H. unfold stripWww. case_match; auto using lowered_drop. Qed.

Lemma cutPath_keeps_lower s :
  toLowerCase s = s -> toLowerCase (cutPath s) = cutPath s.
Proof.
  induction s as [|c r IH]; [done|]. intros H.
  cbn [cutPath]. case_match; [done|].
  simpl in *. injection H as Hc Hr. by rewrite Hc, IH.
Qed.

Lemma cutPath_keeps_terminator s :
  hasLineTerminator s = true -> hasLineTerminator (cutPath s) = true.
Proof.
  induction s as [|c r IH]; [done|]. cbn [cutPath hasLineTerminator].
  destruct (ascii_dec c "/") as [->|Hc]; simpl.
  - destruct (hasLineTerminator r) eqn:Hr; simpl; [auto|done].
  - destruct (isLineTerminator c); simpl; auto.
Qed.

Lemma cutPath_no_slash s :
  hasLineTerminator (cutPath s) = false -> includes (cutPath s) "/" = false.
Proof.
  induction s as [|c r IH]; [done|]. cbn [cutPath].
  destruct (ascii_dec c "/") as [->|Hc]; simpl andb.
  - destruct (hasLineTerminator r) eqn:Hr; simpl; [|done].
    intros H. exfalso. apply cutPath_keeps_terminator in Hr.
    simpl in H. congruence.
  - cbn [hasLineTerminator]. intros [_ H]%orb_false_elim.
    rewrite includes_char_cons, (IH H). destruct (ascii_dec "/" c); congruence.
Qed.

(** X3: a normalised domain is in lower case, and unless a line
    terminator is left in it, it holds no slash. *)
Theorem normDomain_shape s :
  toLowerCase (normDomain s) = normDomain s /\
  (hasLineTerminator (normDomain s) = false ->
   includes (normDomain s) "/" = false).
Proof.
  unfold normDomain. split; [|apply cutPath_no_slash].
  apply cutPath_keeps_lower, stripWww_keeps_lower, stripProtocol_keeps_lower, toLowerCase_idem.
Qed.

Lemma normDomain_shape_witness :
  includes (normDomain (Some " HTTPS://WWW.Example.com/vote?id=1 ")) "/" = false.
Proof.
  apply (proj2 (normDomain_shape (Some " HTTPS://WWW.Example.com/vote?id=1 "))).
  vm_compute. reflexivity.
Defined.

Lemma existsb_eqb x l : existsb (String.eqb x) l = true <-> x ∈ l.
Proof.
  rewrite existsb_exists, list_elem_of_In. split.
  - by intros (y & Hy & ->%String.eqb_eq).
  - intros H. exists x. by rewrite String.eqb_refl.
Qed.

Lemma addDomain_elem ds x d :
  d ∈ addDomain ds x <->
  d ∈ ds \/ (d = normDomain (Some x) /\ d <> "").
Proof.
  unfold addDomain.
  destruct (isEmpty (normDomain (Some x))) eqn:He; simpl.
  - apply isEmpty_true in He. rewrite He. naive_solver.
  - assert (Hx : normDomain (Some x) <> "").
    { intros E. by rewrite E in He. }
    destruct (existsb (String.eqb (normDomain (Some x))) ds) eqn:Hex; simpl.
    + apply existsb_eqb in Hex. naive_solver.
    + rewrite elem_of_app, list_elem_of_singleton. naive_solver.
Qed.

Lemma addDomain_NoDup ds x : NoDup ds -> NoDup (addDomain ds x).
Proof.
  intros Hds. unfold addDomain. case_match eqn:Hc; [|done].
  apply andb_prop in Hc as [_ Hin%negb_true_iff].
  apply NoDup_app. split; [done|]. split; [|apply NoDup_singleton].
  intros d Hd ->%list_elem_of_singleton.
  apply existsb_eqb in Hd. congruence.
Qed.

(** What the loop over the extra domains gives. *)
Lemma addDomain_fold pieces : forall ds,
  NoDup ds ->
  NoDup (fold_left addDomain pieces ds) /\
  (exists more, fold_left addDomain pieces ds = ds ++ more) /\
  (forall d, d ∈ fold_left addDomain pieces ds <->
     d ∈ ds \/
     exists piece, piece ∈ pieces /\ d = normDomain (Some piece) /\ d <> "").
Proof.
  induction pieces as [|x r IH]; intros ds Hds; cbn [fold_left].
  - split; [done|]. split; [exists []; by rewrite app_nil_r|].
    intros d. setoid_rewrite elem_of_nil. naive_solver.
  - destruct (IH _ (addDomain_NoDup ds x Hds)) as (H1 & [more Hmore] & H3).
    split; [done|]. split.
    + rewrite Hmore. unfold addDomain. case_match; [|by eexists].
      rewrite <- app_assoc. by eexists.
    + intros d. rewrite H3, addDomain_elem. setoid_rewrite elem_of_cons.
      naive_solver.
Qed.

(** X4: the domains of a VoteSite document start with the primary
    domain, have no duplicates, are not empty and in lower case, and
    are the primary domain and the normalised extra domains that are
    not empty, nothing else. *)
Theorem votesite_domains fields p meta :
  votesite fields = Ok (p, meta) ->
  let primary := normDomain (fields !! "Domain (no protocol)") in
  let pieces :=
    split ","%char (orEmpty (fields !! "Extra domains (comma separated)")) in
  exists ds,
    get (get (Some meta) "match") "domains" = Some (JArr (map JStr ds)) /\
    head ds = Some primary /\
    NoDup ds /\
    (forall d, d ∈ ds -> d <> "" /\ toLowerCase d = d) /\
    (forall d, d ∈ ds <->
       d = primary \/
       exists piece, piece ∈ pieces /\ d = normDomain (Some piece) /\ d <> "").
Proof.
  intros Hv primary pieces. revert Hv. unfold votesite, field.
  destruct (isEmpty (normDomain (fields !! "Domain (no protocol)"))) eqn:Hd; [done|].
  repeat match goal with
         | |- context [if ?b then Throw _ else _] => destruct b; [done|]
         end.
  intros [= <- <-].
  assert (Hp : primary <> "").
  { intros E. unfold primary in E. by rewrite E in Hd. }
  destruct (addDomain_fold pieces [primary]) as (H1 & [more H2] & H3);
    [apply NoDup_singleton|].
  set (raw := fields !! "Extra domains (comma separated)") in *.
  assert (Hiff : forall ds, ds = (if truthy raw
                      then fold_left addDomain pieces [primary] else [primary]) ->
    head ds = Some primary /\ NoDup ds /\
    (forall d, d ∈ ds <->
       d = primary \/
       exists piece, piece ∈ pieces /\ d = normDomain (Some piece) /\ d <> "")).
  { intros ds ->. destruct (truthy raw) eqn:Ht.
    - split; [by rewrite H2|]. split; [done|].
      intros d. rewrite H3, list_elem_of_singleton. done.
    - split; [done|]. split; [apply NoDup_singleton|].
      intros d. rewrite list_elem_of_singleton. split; [by left|].
      intros [?|(pc & Hpc & Hpd & Hne)]; [done|]. exfalso.
      assert (pieces = [""]) as Hpieces.
      { unfold pieces. destruct raw as [[|]|]; done. }
      rewrite Hpieces in Hpc. apply list_elem_of_singleton in Hpc. subst pc.
      by subst d. }
  eexists. split; [reflexivity|].
  destruct (Hiff _ eq_refl) as (Ha & Hb & Hc). split; [done|]. split; [done|].
  split; [|done]. intros d Hin. apply Hc in Hin as [Hin|(pc & _ & Hin & Hne)].
  - subst d. split; [done|]. apply normDomain_shape.
  - split; [done|]. subst d. apply normDomain_shape.
Qed.

Lemma votesite_domains_witness :
  exists ds, NoDup ds /\ head ds = Some "example.com".
Proof.
  destruct (votesite (parseIssueForm (orEmpty (ISSUE_BODY exampleSite))))
    as [[p meta]|] eqn:Hv; [|by vm_compute in Hv].
  destruct (votesite_domains _ p meta Hv) as (ds & _ & Hh & Hn & _).
  exists ds. split; [done|]. rewrite Hh. vm_compute. reflexivity.
Defined.

Lemma no_char_not s c t :
  includes s (String c "") = false -> includes t (String c "") = true -> s <> t.
Proof. intros Hs Ht ->. congruence. Qed.

(** The segments of a file name made of a slug without dots and an
    extension without slash. *)
Lemma segments_slug slug ext :
  includes slug "." = false -> includes ext "/" = false ->
  (10 <= String.length ext)%nat ->
  exists rest lst,
    segments (slug +:+ ext) = rest ++ [lst +:+ ext] /\
    includes lst "/" = false /\
    (forall seg, seg ∈ rest ->
       seg <> "" /\ seg <> "." /\ seg <> ".." /\ includes seg "/" = false) /\
    (includes slug "/" = false -> rest = [] /\ lst = slug).
Proof.
  intros Hdot Hext Hlen.
  destruct (split_app_tail "/" slug ext Hext) as (init & lst & Hs & Hst).
  assert (Hlst : lst ∈ split "/" slug).
  { rewrite Hs. apply elem_of_app. right. left. }
  exists (filter (fun x => x <> "") init), lst. split; [|split; [|split]].
  - unfold segments. rewrite Hst, filter_app. f_equal.
    rewrite filter_cons_True; [done|].
    intros E. apply (f_equal String.length) in E.
    rewrite length_append in E. simpl in E. lia.
  - by apply split_piece in Hlst as [? _].
  - intros seg [Hin Hne]%list_elem_of_filter.
    assert (Hseg : seg ∈ split "/" slug).
    { rewrite Hs. apply elem_of_app. by left. }
    apply split_piece in Hseg as [H1 H2]. specialize (H2 "."%char Hdot).
    split; [done|]. split; [|split; [|done]]; by apply (no_char_not _ "."%char).
  - intros Hno. rewrite (split_no_sep _ _ Hno) in Hs.
    destruct init as [|x [|y ys]]; simplify_eq/=; [done|..];
      by destruct ys.
Qed.

Lemma pathJoin_three a b x :
  pathJoin [a; b; x] = segments a ++ segments b ++ segments x.
Proof. unfold pathJoin. simpl. by rewrite app_nil_r. Qed.

(** X5: the document of a VoteSite submission goes below
    [presets/votesites]: its path has these two segments and then
    segments that are not empty, are neither [.] nor [..] and hold no
    slash, the last of them with the extension [.meta.json]; for a
    domain without slash it is the one file
    [presets/votesites/<slug>.meta.json]. *)
Theorem votesite_path fields p meta :
  votesite fields = Ok (p, meta) ->
  let domain := normDomain (fields !! "Domain (no protocol)") in
  exists rest name,
    p = "presets" :: "votesites" :: rest ++ [name] /\
    endsWith name ".meta.json" = true /\
    (forall seg, seg ∈ rest ++ [name] ->
       seg <> "" /\ seg <> "." /\ seg <> ".." /\ includes seg "/" = false) /\
    (includes domain "/" = false ->
     rest = [] /\
     name = replaceAll "."%char "_"%char domain +:+ ".meta.json").
Proof.
  intros Hv domain. revert Hv. unfold votesite, field. fold domain.
  repeat match goal with
         | |- context [if ?b then Throw _ else _] => destruct b; [done|]
         end.
  intros [= <- _].
  destruct (segments_slug (replaceAll "."%char "_"%char domain) ".meta.json")
    as (rest & lst & Hs & Hl & Hrest & Hone);
    [by apply replaceAll_gone|done|simpl; lia|].
  exists rest, (lst +:+ ".meta.json").
  split; [by rewrite app_nil_r, Hs|].
  split; [apply endsWith_append|]. split.
  - intros seg [Hin| ->%list_elem_of_singleton]%elem_of_app; [by apply Hrest|].
    assert (Hlen : (10 <= String.length (lst +:+ ".meta.json"))%nat).
    { rewrite length_append. simpl. lia. }
    split; [|split; [|split]];
      try (intros E; rewrite E in Hlen; simpl in Hlen; lia).
    by rewrite includes_char_app, Hl.
  - intros Hd. destruct Hone as [-> ->]; [|done].
    by apply replaceAll_keeps_out.
Qed.

Lemma votesite_path_witness :
  exists p meta,
    votesite (parseIssueForm (orEmpty (ISSUE_BODY exampleSite))) = Ok (p, meta) /\
    p = ["presets"; "votesites"; "example_com.meta.json"].
Proof.
  destruct (votesite (parseIssueForm (orEmpty (ISSUE_BODY exampleSite))))
    as [[p meta]|] eqn:Hv; [|by vm_compute in Hv].
  exists p, meta. split; [done|].
  destruct (votesite_path _ p meta Hv) as (rest & name & -> & _ & _ & Hone).
  destruct Hone as [-> ->]; [vm_compute; reflexivity|].
  vm_compute. reflexivity.
Defined.

(** X6: the files of a Reward submission.  Both lie in
    [presets/rewards], named by the preset id with every colon and
    slash turned into an underscore; the type is [commands] or
    [messages]; the fragment the document names is the fragment file
    written; and the fragment holds the header and the block marker of
    the type, whose placeholder is the one the document declares. *)
Theorem reward_files fields mp meta yp yml :
  reward fields = Ok ((mp, meta), (yp, yml)) ->
  let presetId := trim (orEmpty (fields !! "Preset ID")) in
  let rewardType := toLowerCase (trim (orEmpty (fields !! "Reward type"))) in
  let slug := replaceAll "/"%char "_"%char (replaceAll ":"%char "_"%char presetId) in
  includes slug "/" = false /\ includes slug ":" = false /\
  mp = ["presets"; "rewards"; slug +:+ ".meta.json"] /\
  yp = ["presets"; "rewards"; slug +:+ ".rewardblock.yml"] /\
  (exists merge,
     get (Some meta) "fragments"
     = Some (JArr [JObj [("path", JStr (render yp)); ("mergeInto", JStr merge)]])) /\
  ((rewardType = "commands" /\
    yml = "Commands:" +:+ nl +:+ "<commandsBlock>" +:+ nl /\
    exists slot, get (Some meta) "placeholders" = Some (JObj [("commands", slot)]))
   \/
   (rewardType = "messages" /\
    yml = "Messages:" +:+ nl +:+ "<messagesBlock>" +:+ nl /\
    exists slot, get (Some meta) "placeholders" = Some (JObj [("messages", slot)]))).
Proof.
  intros Hr presetId rewardType slug. revert Hr. unfold reward, trimmed, field.
  fold presetId rewardType. fold slug.
  assert (Hs1 : includes slug "/" = false) by (by apply replaceAll_gone).
  assert (Hs2 : includes slug ":" = false).
  { apply replaceAll_keeps_out; [done|]. by apply replaceAll_gone. }
  assert (Hseg : forall ext, (10 <= String.length ext)%nat ->
            includes ext "/" = false ->
            pathJoin ["presets"; "rewards"; slug +:+ ext]
            = ["presets"; "rewards"; slug +:+ ext]).
  { intros ext Hlen Hext. rewrite pathJoin_three. unfold segments at 3.
    rewrite split_no_sep by (by rewrite includes_char_app, Hs1, Hext).
    rewrite filter_cons_True; [done|].
    intros E. apply (f_equal String.length) in E.
    rewrite length_append in E. simpl in E. lia. }
  repeat match goal with
         | |- context [if ?b then Throw _ else _] =>
             destruct b eqn:?; [done|]
         end.
  rewrite !Hseg by (done || (simpl; lia)).
  intros [= <- <- <- <-]. split; [done|]. split; [done|].
  split; [done|]. split; [done|]. split; [by eexists|].
  destruct (String.eqb_spec rewardType "commands") as [Hc|Hc].
  - left. split; [done|]. split; [done|]. by eexists.
  - right. destruct (String.eqb_spec rewardType "messages") as [Hm|Hm]; [|done].
    split; [done|]. split; [done|]. by eexists.
Qed.

Lemma reward_files_witness :
  exists mp meta yp yml,
    reward (parseIssueForm (form [
      ("Preset ID", "reward:vote/daily");
      ("Display name", "Daily");
      ("Reward type", "Commands");
      ("Default lines (one per line)", "give %player% diamond 1")]))
    = Ok ((mp, meta), (yp, yml)) /\
    yp = ["presets"; "rewards"; "reward_vote_daily.rewardblock.yml"].
Proof.
  destruct (reward _) as [[[mp meta] [yp yml]]|] eqn:Hr; [|by vm_compute in Hr].
  exists mp, meta, yp, yml. split; [done|].
  destruct (reward_files _ mp meta yp yml Hr) as (_ & _ & _ & -> & _).
  vm_compute. reflexivity.
Defined.

Lemma inferCategory_votesites t :
  IndexBuilder.inferCategory ("presets/votesites/" +:+ t) = "votesites".
Proof.
  unfold IndexBuilder.inferCategory. rewrite replaceAll_append.
  replace (replaceAll "092" "/" "presets/votesites/") with "presets/votesites/"
    by reflexivity.
  by rewrite includes_startsWith by apply startsWith_append.
Qed.

Lemma inferCategory_rewards t :
  includes t "/" = false -> includes t (String "092"%char "") = false ->
  IndexBuilder.inferCategory ("presets/rewards/" +:+ t) = "rewards".
Proof.
  intros Hs Hb. unfold IndexBuilder.inferCategory.
  rewrite replaceAll_append, (replaceAll_absent _ _ t Hb).
  replace (replaceAll "092" "/" "presets/rewards/") with "presets/rewards/"
    by reflexivity.
  rewrite (includes_startsWith _ "presets/rewards/") by apply startsWith_append.
  replace (includes ("presets/rewards/" +:+ t) "presets/votesites/")
    with (includes t "presets/votesites/") by reflexivity.
  destruct (includes t "presets/votesites/") eqn:E; [|done].
  apply (includes_needs_char _ _ "/"%char) in E; [congruence|reflexivity].
Qed.

Lemma render_two a b l :
  l <> [] -> render (a :: b :: l) = a +:+ "/" +:+ b +:+ "/" +:+ render l.
Proof. destruct l; done. Qed.

Lemma nonempty_not_isEmpty s : s <> "" -> isEmpty s = false.
Proof. by destruct s. Qed.

(** X7: the document of a VoteSite submission is one the index builder
    takes: read at the path it is written to, it gives an entry with
    the preset id, the display name followed by [(generic)], the
    category [votesites] and no verification; and the name of its file
    has the extension the scan looks for. *)
Theorem votesite_indexable fields p meta :
  votesite fields = Ok (p, meta) ->
  exists e,
    IndexBuilder.toIndexEntry meta (render p) = Ok e /\
    IndexBuilder.id e = trim (orEmpty (fields !! "Preset ID")) /\
    IndexBuilder.name e
    = trim (orEmpty (fields !! "Display name (displayName)")) +:+ " (generic)" /\
    IndexBuilder.category e = "votesites" /\
    IndexBuilder.verified e = false /\
    endsWith (basename p) ".meta.json" = true.
Proof.
  intros Hv. destruct (votesite_path _ _ _ Hv) as (rest & nm & Hp & Hext & _ & _).
  assert (Hcat : IndexBuilder.inferCategory (render p) = "votesites").
  { rewrite Hp, render_two by (by destruct rest). apply inferCategory_votesites. }
  assert (Hbase : endsWith (basename p) ".meta.json" = true).
  { rewrite Hp. unfold basename.
    change ("presets" :: "votesites" :: rest ++ [nm])
      with (["presets"; "votesites"] ++ rest ++ [nm]).
    by rewrite app_assoc, last_last. }
  revert Hv Hcat. generalize (render p) as rel. intros rel.
  unfold votesite, trimmed, field.
  destruct (isEmpty (normDomain _)); [done|].
  destruct (startsWith (trim (orEmpty (fields !! "Preset ID"))) "votesite:")
    eqn:Hid; [|done]. cbn [negb].
  destruct (isEmpty (trim (orEmpty (fields !! "VoteSite key (siteKey)"))));
    [done|].
  destruct (isEmpty (trim (orEmpty (fields !! "Display name (displayName)"))))
    eqn:Hname; [done|].
  destruct (isEmpty (trim (orEmpty (fields !! "ServiceSite (required)"))));
    [done|].
  intros [= _ <-] Hcat. unfold IndexBuilder.toIndexEntry.
  cbn [get prop asString String.eqb Ascii.eqb Bool.eqb andb].
  rewrite trim_idem.
  rewrite (nonempty_not_isEmpty (trim (orEmpty (fields !! "Preset ID"))))
    by (intros E; by rewrite E in Hid).
  rewrite nonempty_not_isEmpty.
  2: { apply trim_append_nonempty. intros E. by rewrite E in Hname. }
  eexists. split; [reflexivity|]. cbn. by rewrite Hcat.
Qed.

Lemma votesite_indexable_witness :
  exists p meta e,
    votesite (parseIssueForm (orEmpty (ISSUE_BODY exampleSite))) = Ok (p, meta) /\
    IndexBuilder.toIndexEntry meta (render p) = Ok e /\
    IndexBuilder.id e = "votesite:example".
Proof.
  destruct (votesite (parseIssueForm (orEmpty (ISSUE_BODY exampleSite))))
    as [[p meta]|] eqn:Hv; [|by vm_compute in Hv].
  destruct (votesite_indexable _ p meta Hv) as (e & He & Hid & _).
  exists p, meta, e. split; [done|]. split; [done|].
  rewrite Hid. vm_compute. reflexivity.
Defined.

(** X8: the document of a Reward submission whose preset id holds no
    backslash is one the index builder takes: read at the path it is
    written to, it gives an entry with the preset id, the display name
    and the category [rewards]. *)
Theorem reward_indexable fields mp meta yp yml :
  reward fields = Ok ((mp, meta), (yp, yml)) ->
  includes (trim (orEmpty (fields !! "Preset ID"))) (String "092"%char "") = false ->
  exists e,
    IndexBuilder.toIndexEntry meta (render mp) = Ok e /\
    IndexBuilder.id e = trim (orEmpty (fields !! "Preset ID")) /\
    IndexBuilder.name e = trim (orEmpty (fields !! "Display name")) /\
    IndexBuilder.category e = "rewards" /\
    IndexBuilder.verified e = false /\
    endsWith (basename mp) ".meta.json" = true.
Proof.
  intros Hr Hb. destruct (reward_files _ _ _ _ _ Hr) as (Hs1 & _ & Hmp & _).
  set (slug := replaceAll "/"%char "_"%char _) in *.
  assert (Hcat : IndexBuilder.inferCategory (render mp) = "rewards").
  { rewrite Hmp.
    change (render ["presets"; "rewards"; slug +:+ ".meta.json"])
      with ("presets/rewards/" +:+ (slug +:+ ".meta.json")).
    apply inferCategory_rewards; rewrite includes_char_app.
    - by rewrite Hs1.
    - unfold slug. rewrite replaceAll_keeps_out; [done|done|].
      by apply replaceAll_keeps_out. }
  assert (Hbase : endsWith (basename mp) ".meta.json" = true).
  { rewrite Hmp. apply endsWith_append. }
  revert Hr Hcat. generalize (render mp) as rel. intros rel.
  unfold reward, trimmed, field.
  destruct (startsWith (trim (orEmpty (fields !! "Preset ID"))) "reward:")
    eqn:Hid; [|done]. cbn [negb].
  destruct (isEmpty (trim (orEmpty (fields !! "Display name")))) eqn:Hname;
    [done|].
  repeat match goal with
         | |- context [if ?b then Throw _ else _] => destruct b; [done|]
         end.
  intros [= _ <- _ _] Hcat. unfold IndexBuilder.toIndexEntry.
  cbn [get prop asString String.eqb Ascii.eqb Bool.eqb andb].
  rewrite !trim_idem.
  rewrite (nonempty_not_isEmpty (trim (orEmpty (fields !! "Preset ID"))))
    by (intros E; by rewrite E in Hid).
  rewrite Hname.
  eexists. split; [reflexivity|]. cbn. by rewrite Hcat.
Qed.

Lemma reward_indexable_witness :
  exists mp meta e,
    IndexBuilder.toIndexEntry meta (render mp) = Ok e /\
    IndexBuilder.category e = "rewards" /\
    mp = ["presets"; "rewards"; "reward_vote_daily.meta.json"].
Proof.
  destruct (reward (parseIssueForm (form [
      ("Preset ID", "reward:vote/daily");
      ("Display name", "Daily");
      ("Reward type", "Commands");
      ("Default lines (one per line)", "give %player% diamond 1")])))
    as [[[mp meta] [yp yml]]|] eqn:Hr; [|by vm_compute in Hr].
  destruct (reward_indexable _ mp meta yp yml Hr) as (e & He & _ & _ & Hc & _);
    [vm_compute; reflexivity|].
  exists mp, meta, e. split; [done|]. split; [done|].
  by destruct (reward_files _ mp meta yp yml Hr) as (_ & _ & -> & _).
Defined.

(** A preset id with backslashes can put a Reward preset into another
    category. *)
Example reward_backslash_category :
  IndexBuilder.inferCategory
    (render (pathJoin ["presets"; "rewards";
       replaceAll "/"%char "_"%char
         (replaceAll ":"%char "_"%char
            ("reward:a" +:+ String "092"%char "presets" +:+
             String "092"%char "votesites" +:+ String "092"%char "b"))
       +:+ ".meta.json"]))
  = "votesites".
Proof. vm_compute. reflexivity. Qed.

(** *** Writing files *)

Lemma mkdirp_error p : forall d e,
  mkdirp p d = Throw e -> exists code, e = SystemError code.
Proof.
  induction p as [|s p' IH]; intros d e; simpl; [done|].
  destruct (entry s d) as [[c|es]|].
  - intros [= <-]. by eexists.
  - destruct (mkdirp p' es) as [sub|e'] eqn:Hm; [done|].
    simpl. intros [= <-]. by eapply IH.
  - destruct (mkdirp p' []) as [sub|e'] eqn:Hm; [done|].
    simpl. intros [= <-]. by eapply IH.
Qed.

Lemma writeFileSync_error p : forall c d e,
  writeFileSync p c d = Throw e -> exists code, e = SystemError code.
Proof.
  induction p as [|s p' IH]; intros c d e; simpl.
  - intros [= <-]. by eexists.
  - destruct p' as [|s' p''].
    + destruct (entry s d) as [[?|?]|]; intros [= <-]; by eexists.
    + destruct (entry s d) as [[?|es]|]; try (intros [= <-]; by eexists).
      destruct (writeFileSync (s' :: p'') c es) as [sub|e'] eqn:Hw; [done|].
      simpl. intros [= <-]. by eapply IH.
Qed.

Lemma writeFile_error p c fs e fs' :
  writeFile p c fs = (Throw e, fs') -> exists code, e = SystemError code.
Proof.
  unfold writeFile. destruct (existsb hasNul (dirname p)).
  { intros [= <- _]. by eexists. }
  destruct (mkdirp (dirname p) fs) as [fs1|e1] eqn:Hm.
  2: { intros [= <- _]. by eapply mkdirp_error. }
  destruct (existsb hasNul p). { intros [= <- _]. by eexists. }
  destruct (writeFileSync p c fs1) as [fs2|e2] eqn:Hw; [done|].
  intros [= <- _]. by eapply writeFileSync_error.
Qed.

Lemma writeFileSync_lookup p : forall c d d',
  writeFileSync p c d = Ok d' -> lookup p d' = Some (File c).
Proof.
  induction p as [|s p' IH]; intros c d d'; simpl; [done|].
  destruct p' as [|s' p''].
  - destruct (entry s d) as [[?|?]|]; intros [= <-]; try done;
      by rewrite entry_setEntry_eq.
  - destruct (entry s d) as [[?|es]|]; try done.
    destruct (writeFileSync (s' :: p'') c es) as [sub|] eqn:Hw; [|done].
    simpl. intros [= <-]. rewrite entry_setEntry_eq. by eapply IH.
Qed.

Lemma lookup_cons_setEntry s n d q :
  lookup (s :: q) (setEntry s n d)
  = match q, n with
    | [], _ => Some n
    | _, Dir e => lookup q e
    | _, File _ => None
    end.
Proof. simpl. rewrite entry_setEntry_eq. by destruct q, n. Qed.

Lemma lookup_cons_Dir s q d e :
  q <> [] -> entry s d = Some (Dir e) -> lookup (s :: q) d = lookup q e.
Proof. intros Hq He. simpl. rewrite He. by destruct q. Qed.

(** [mkdirp] leaves every file as it is. *)
Lemma mkdirp_files p : forall d d' q c,
  mkdirp p d = Ok d' -> lookup q d = Some (File c) -> lookup q d' = Some (File c).
Proof.
  induction p as [|s p' IH]; intros d d' q c; simpl; [by intros [= <-]|].
  destruct (entry s d) as [[c0|es]|] eqn:He; [done| |].
  - destruct (mkdirp p' es) as [sub|] eqn:Hm; [|done]. simpl. intros [= <-].
    destruct q as [|s0 q']; [done|].
    destruct (decide (s = s0)) as [<-|Hne].
    + destruct q' as [|s1 q''].
      * simpl. by rewrite He.
      * rewrite (lookup_cons_Dir s _ d es), lookup_cons_setEntry by done.
        by apply IH.
    + by rewrite lookup_setEntry_ne.
  - destruct (mkdirp p' []) as [sub|] eqn:Hm; [|done]. simpl. intros [= <-].
    destruct q as [|s0 q']; [done|].
    destruct (decide (s = s0)) as [<-|Hne].
    + simpl. rewrite He. by destruct q'.
    + by rewrite lookup_setEntry_ne.
Qed.

(** [writeFileSync] leaves every other file as it is. *)
Lemma writeFileSync_other p : forall c d d' q c0,
  writeFileSync p c d = Ok d' -> q <> p ->
  lookup q d = Some (File c0) -> lookup q d' = Some (File c0).
Proof.
  induction p as [|s p' IH]; intros c d d' q c0; simpl; [done|].
  destruct p' as [|s' p''].
  - destruct (entry s d) as [[c1|es]|] eqn:He; [|done|]; intros [= <-] Hq;
      (destruct q as [|s0 q']; [done|]);
      (destruct (decide (s = s0)) as [<-|Hne];
        [|by rewrite lookup_setEntry_ne]);
      (destruct q' as [|s1 q'']; [done|]); simpl; by rewrite He.
  - destruct (entry s d) as [[c1|es]|] eqn:He; try done.
    destruct (writeFileSync (s' :: p'') c es) as [sub|] eqn:Hw; [|done].
    simpl. intros [= <-] Hq.
    destruct q as [|s0 q']; [done|].
    destruct (decide (s = s0)) as [<-|Hne]; [|by rewrite lookup_setEntry_ne].
    destruct q' as [|s1 q''].
    + simpl. by rewrite He.
    + rewrite (lookup_cons_Dir s _ d es), lookup_cons_setEntry by done.
      eapply IH; [done|congruence].
Qed.

(** X9: [writeFile], when it ends well, leaves the content at the path
    and every other file with the content it had; when it fails, it
    fails with an error of the file system and no file has changed. *)
Theorem writeFile_effect p content fs r fs' :
  writeFile p content fs = (r, fs') ->
  (forall q c, q <> p -> lookup q fs = Some (File c) ->
               lookup q fs' = Some (File c)) /\
  match r with
  | Ok _ => lookup p fs' = Some (File content)
  | Throw e =>
      (exists code, e = SystemError code) /\
      forall c, lookup p fs = Some (File c) -> lookup p fs' = Some (File c)
  end.
Proof.
  intros H. pose proof H as H'. revert H. unfold writeFile.
  destruct (existsb hasNul (dirname p)).
  { intros [= <- <-]. split; [done|]. split; [by eexists|done]. }
  destruct (mkdirp (dirname p) fs) as [fs1|e1] eqn:Hm.
  2: { intros [= <- <-]. split; [done|]. split; [|done].
       by eapply mkdirp_error. }
  destruct (existsb hasNul p).
  { intros [= <- <-]. split; [|split; [by eexists|]].
    - intros q c _. by eapply mkdirp_files.
    - intros c. by eapply mkdirp_files. }
  destruct (writeFileSync p content fs1) as [fs2|e2] eqn:Hw.
  - intros [= <- <-]. split; [|by eapply writeFileSync_lookup].
    intros q c Hq Hl. eapply writeFileSync_other; [done..|].
    by eapply mkdirp_files.
  - intros [= <- <-]. split; [|split; [by eapply writeFileSync_error|]].
    + intros q c _. by eapply mkdirp_files.
    + intros c. by eapply mkdirp_files.
Qed.

Lemma writeFile_effect_witness :
  lookup ["presets"; "votesites"; "new.meta.json"]
    (writeFile ["presets"; "votesites"; "new.meta.json"] "{}" exampleRepo).2
  = Some (File "{}") /\
  lookup ["presets"; "votesites"; "example_com.meta.json"]
    (writeFile ["presets"; "votesites"; "new.meta.json"] "{}" exampleRepo).2
  = Some (File "kept").
Proof.
  destruct (writeFile_effect ["presets"; "votesites"; "new.meta.json"] "{}"
              exampleRepo (Ok tt)
              (writeFile ["presets"; "votesites"; "new.meta.json"] "{}"
                 exampleRepo).2) as [Hother Hp]; [vm_compute; reflexivity|].
  split; [exact Hp|]. apply Hother; [discriminate|vm_compute; reflexivity].
Defined.

Lemma mkdirp_root_frame p d d' s :
  mkdirp p d = Ok d' -> head p <> Some s -> entry s d' = entry s d.
Proof.
  destruct p as [|s0 p']; simpl; [by intros [= <-]|]. intros H Hs.
  assert (Hne : s0 <> s) by congruence.
  destruct (entry s0 d) as [[?|es]|]; [done| |].
  - destruct (mkdirp p' es); [|done]. simpl in H. injection H as <-.
    by apply entry_setEntry_ne.
  - destruct (mkdirp p' []); [|done]. simpl in H. injection H as <-.
    by apply entry_setEntry_ne.
Qed.

Lemma writeFileSync_root_frame s0 p' c d d' s :
  writeFileSync (s0 :: p') c d = Ok d' -> s0 <> s -> entry s d' = entry s d.
Proof.
  simpl. intros H Hne. destruct p' as [|s1 p''].
  - destruct (entry s0 d) as [[?|?]|]; simplify_eq; by apply entry_setEntry_ne.
  - destruct (entry s0 d) as [[?|es]|]; try done.
    destruct (writeFileSync (s1 :: p'') c es); [|done]. simpl in H.
    injection H as <-. by apply entry_setEntry_ne.
Qed.

(** A write below one entry of the root leaves the others. *)
Lemma writeFile_root_frame s0 p' c fs r fs' s :
  writeFile (s0 :: p') c fs = (r, fs') -> s0 <> s -> entry s fs' = entry s fs.
Proof.
  intros H Hne. revert H. unfold writeFile.
  destruct (existsb hasNul _); [by intros [= _ <-]|].
  destruct (mkdirp (dirname (s0 :: p')) fs) as [fs1|] eqn:Hm; [|by intros [= _ <-]].
  assert (H1 : entry s fs1 = entry s fs).
  { eapply mkdirp_root_frame; [done|]. destruct p'; simpl; congruence. }
  destruct (existsb hasNul _); [by intros [= _ <-]|].
  destruct (writeFileSync (s0 :: p') c fs1) as [fs2|] eqn:Hw; intros [= _ <-];
    [|done].
  rewrite <- H1. by eapply writeFileSync_root_frame.
Qed.

Section RunExtras.
Variable JSON_parse : string -> option json.
Variable localeCompare : string -> string -> Z.
Variable now : string.

Lemma rebuildIndex_outcome fs r fs' :
  rebuildIndex JSON_parse localeCompare now fs = (r, fs') ->
  r = Ok tt \/ r = Throw (CommandFailed "node tools/build-index.mjs").
Proof.
  unfold rebuildIndex.
  destruct (IndexBuilder.main JSON_parse localeCompare now fs) as [[[]|] ?];
    intros [= <- _]; auto.
Qed.

Lemma rebuildIndex_lookup' fs r fs' s p :
  rebuildIndex JSON_parse localeCompare now fs = (r, fs') ->
  s <> "index.json" -> lookup (s :: p) fs' = lookup (s :: p) fs.
Proof.
  intros H Hs.
  pose proof (rebuildIndex_lookup JSON_parse localeCompare now fs s p Hs) as H'.
  by rewrite H in H'.
Qed.

(** X10: a run of the generator that ends in an error of the script
    itself, which the validations alone raise, has written nothing. *)
Theorem main_error_no_write e fs msg fs' :
  main JSON_parse localeCompare now e fs = (Throw (Error msg), fs') -> fs' = fs.
Proof.
  unfold main. destruct (negb (truthy (ISSUE_NUMBER e))); [by intros [= _ <-]|].
  destruct (String.eqb (kindOf e) "votesite").
  - destruct (votesite _) as [[p meta]|]; [|by intros [= _ <-]].
    destruct (writeFile p _ fs) as [[[]|e1] fs1] eqn:Hw.
    + intros H. by apply rebuildIndex_outcome in H as [|].
    + intros [= -> _]. by apply writeFile_error in Hw as [? ?].
  - destruct (reward _) as [[[mp meta] [yp yml]]|]; [|by intros [= _ <-]].
    destruct (writeFile mp _ fs) as [[[]|e1] fs1] eqn:Hw.
    + destruct (writeFile yp _ fs1) as [[[]|e2] fs2] eqn:Hw2.
      * intros H. by apply rebuildIndex_outcome in H as [|].
      * intros [= -> _]. by apply writeFile_error in Hw2 as [? ?].
    + intros [= -> _]. by apply writeFile_error in Hw as [? ?].
Qed.

(** X11: a VoteSite submission that passes the validations ends with
    its document in its file, whether the rebuild of the index ends well
    or fails, unless the write itself fails with an error of the file
    system. *)
Theorem votesite_document_written e fs p meta r fs' :
  truthy (ISSUE_NUMBER e) = true -> kindOf e = "votesite" ->
  votesite (parseIssueForm (orEmpty (ISSUE_BODY e))) = Ok (p, meta) ->
  main JSON_parse localeCompare now e fs = (r, fs') ->
  (exists code, r = Throw (SystemError code)) \/
  ((r = Ok tt \/ r = Throw (CommandFailed "node tools/build-index.mjs")) /\
   lookup p fs' = Some (File (stringify meta +:+ nl))).
Proof.
  intros Hn Hk Hv. unfold main. rewrite Hn, Hk, Hv. simpl.
  destruct (votesite_path _ _ _ Hv) as (rest & nm & Hp & _).
  destruct (writeFile p _ fs) as [[[]|e1] fs1] eqn:Hw.
  - intros H. right. split; [by eapply rebuildIndex_outcome|].
    apply writeFile_effect in Hw as [_ Hw]. rewrite <- Hw, Hp.
    by eapply rebuildIndex_lookup'.
  - intros [= <- _]. left. apply writeFile_error in Hw as [code ->]. by eexists.
Qed.

(** X12: a Reward submission that passes the validations ends with its
    document and its fragment in their files, whether the rebuild of the
    index ends well or fails, unless one of the two writes fails with an
    error of the file system. *)
Theorem reward_documents_written e fs mp meta yp yml r fs' :
  truthy (ISSUE_NUMBER e) = true -> kindOf e <> "votesite" ->
  reward (parseIssueForm (orEmpty (ISSUE_BODY e))) = Ok ((mp, meta), (yp, yml)) ->
  main JSON_parse localeCompare now e fs = (r, fs') ->
  (exists code, r = Throw (SystemError code)) \/
  ((r = Ok tt \/ r = Throw (CommandFailed "node tools/build-index.mjs")) /\
   lookup mp fs' = Some (File (stringify meta +:+ nl)) /\
   lookup yp fs' = Some (File yml)).
Proof.
  intros Hn Hk Hr. unfold main. rewrite Hn, Hr. simpl.
  destruct (String.eqb_spec (kindOf e) "votesite"); [done|].
  destruct (reward_files _ _ _ _ _ Hr) as (_ & _ & Hmp & Hyp & _).
  destruct (writeFile mp _ fs) as [[[]|e1] fs1] eqn:Hw.
  2: { intros [= <- _]. left. apply writeFile_error in Hw as [code ->].
       by eexists. }
  destruct (writeFile yp _ fs1) as [[[]|e2] fs2] eqn:Hw2.
  2: { intros [= <- _]. left. apply writeFile_error in Hw2 as [code ->].
       by eexists. }
  intros H. right. split; [by eapply rebuildIndex_outcome|].
  apply writeFile_effect in Hw as [_ Hw].
  apply writeFile_effect in Hw2 as [Hother Hw2].
  assert (Hne : mp <> yp).
  { rewrite Hmp, Hyp. intros [= E]. apply (f_equal String.length) in E.
    rewrite !length_append in E. simpl in E. lia. }
  split.
  - rewrite <- (Hother mp _ Hne Hw), Hmp. by eapply rebuildIndex_lookup'.
  - rewrite <- Hw2, Hyp. by eapply rebuildIndex_lookup'.
Qed.

(** X13: whatever a run of the generator does, it leaves every entry of
    the repository root other than [presets] and [index.json] as it
    was. *)
Theorem main_root_frame e fs s :
  s <> "presets" -> s <> "index.json" ->
  entry s (main JSON_parse localeCompare now e fs).2 = entry s fs.
Proof.
  intros Hp Hi.
  assert (Hre : forall fs0 r fs1,
    rebuildIndex JSON_parse localeCompare now fs0 = (r, fs1) ->
    entry s fs1 = entry s fs0).
  { intros fs0 r fs1 H. by apply (rebuildIndex_lookup' _ _ _ s []) in H. }
  unfold main. destruct (negb (truthy (ISSUE_NUMBER e))); [done|].
  destruct (String.eqb (kindOf e) "votesite").
  - destruct (votesite _) as [[p meta]|] eqn:Hv; [|done].
    destruct (votesite_path _ _ _ Hv) as (rest & nm & -> & _).
    destruct (writeFile _ _ fs) as [r1 fs1] eqn:Hw.
    apply writeFile_root_frame with (s := s) in Hw; [|congruence].
    destruct r1 as [[]|]; [|done].
    destruct (rebuildIndex _ _ _ fs1) as [r2 fs2] eqn:Hr.
    simpl. by rewrite (Hre _ _ _ Hr).
  - destruct (reward _) as [[[mp meta] [yp yml]]|] eqn:Hr; [|done].
    destruct (reward_files _ _ _ _ _ Hr) as (_ & _ & -> & -> & _).
    destruct (writeFile _ _ fs) as [r1 fs1] eqn:Hw.
    apply writeFile_root_frame with (s := s) in Hw; [|congruence].
    destruct r1 as [[]|]; [|done].
    destruct (writeFile _ _ fs1) as [r2 fs2] eqn:Hw2.
    apply writeFile_root_frame with (s := s) in Hw2; [|congruence].
    destruct r2 as [[]|]; [|simpl; congruence].
    destruct (rebuildIndex _ _ _ fs2) as [r3 fs3] eqn:Hr3.
    simpl. rewrite (Hre _ _ _ Hr3). congruence.
Qed.
End RunExtras.

Lemma main_error_no_write_witness :
  (main (fun _ => None) compareCodeUnits "2026-01-01T00:00:00.000Z"
     musicReward exampleRepo).2 = exampleRepo.
Proof.
  apply (main_error_no_write (fun _ => None) compareCodeUnits
           "2026-01-01T00:00:00.000Z" musicReward exampleRepo
           "Reward type must be commands or messages").
  vm_compute. reflexivity.
Defined.

Lemma votesite_document_written_witness :
  exists p meta,
    votesite (parseIssueForm (orEmpty (ISSUE_BODY exampleSite))) = Ok (p, meta) /\
    lookup p (main (fun _ => None) compareCodeUnits "2026-01-01T00:00:00.000Z"
                exampleSite []).2
    = Some (File (stringify meta +:+ nl)).
Proof.
  destruct (votesite (parseIssueForm (orEmpty (ISSUE_BODY exampleSite))))
    as [[p meta]|] eqn:Hv; [|by vm_compute in Hv].
  exists p, meta. split; [done|].
  destruct (votesite_document_written (fun _ => None) compareCodeUnits
              "2026-01-01T00:00:00.000Z" exampleSite [] p meta
              (main (fun _ => None) compareCodeUnits "2026-01-01T00:00:00.000Z"
                 exampleSite []).1
              (main (fun _ => None) compareCodeUnits "2026-01-01T00:00:00.000Z"
                 exampleSite []).2)
    as [[code Hc]|[_ H]]; try done; try (vm_compute; reflexivity).
Defined.

Lemma reward_documents_written_witness :
  exists mp meta yp yml,
    reward (parseIssueForm (orEmpty (ISSUE_BODY dailyReward)))
    = Ok ((mp, meta), (yp, yml)) /\
    lookup mp (main (fun _ => None) compareCodeUnits "2026-01-01T00:00:00.000Z"
                 dailyReward []).2
    = Some (File (stringify meta +:+ nl)) /\
    lookup yp (main (fun _ => None) compareCodeUnits "2026-01-01T00:00:00.000Z"
                 dailyReward []).2
    = Some (File yml).
Proof.
  destruct (reward (parseIssueForm (orEmpty (ISSUE_BODY dailyReward))))
    as [[[mp meta] [yp yml]]|] eqn:Hr; [|by vm_compute in Hr].
  exists mp, meta, yp, yml. split; [done|].
  destruct (reward_documents_written (fun _ => None) compareCodeUnits
              "2026-01-01T00:00:00.000Z" dailyReward [] mp meta yp yml
              (main (fun _ => None) compareCodeUnits "2026-01-01T00:00:00.000Z"
                 dailyReward []).1
              (main (fun _ => None) compareCodeUnits "2026-01-01T00:00:00.000Z"
                 dailyReward []).2)
    as [[code Hc]|[_ H]]; try done; try (vm_compute; reflexivity);
    try (vm_compute; discriminate).
Defined.

Lemma main_root_frame_witness :
  entry "README.md"
    (main (fun _ => None) compareCodeUnits "2026-01-01T00:00:00.000Z"
       exampleSite (exampleRepo ++ [("README.md", File "read me")])).2
  = Some (File "read me").
Proof.
  rewrite (main_root_frame (fun _ => None) compareCodeUnits
             "2026-01-01T00:00:00.000Z" exampleSite
             (exampleRepo ++ [("README.md", File "read me")]) "README.md");
    [reflexivity|discriminate|discriminate].
Defined.

End GeneratorExtras.


(** ** More on the index builder *)

Module IndexExtras.
Import Js Json Fs IndexBuilder Statements JsFacts FsFacts IndexFacts
  OrderFacts ParserExtras StringExtras.

(** *** The sorted lists of an entry *)

Lemma ltb_total a : forall b, ltb a b = false -> ltb b a = false -> a = b.
Proof.
  induction a as [|x a IH]; intros [|y b]; simpl; try done.
  destruct (N.ltb_spec (code x) (code y)), (N.ltb_spec (code y) (code x));
    try done.
  intros Ha Hb. assert (code x = code y) as E by lia.
  apply code_inj in E. rewrite E. unfold code.
  rewrite ascii_N_embedding. f_equal. by apply IH.
Qed.

Lemma insert_sorted_ext {A} (gt gt' : A -> A -> bool) x l :
  (forall a b, gt a b = gt' a b) -> insert_sorted gt x l = insert_sorted gt' x l.
Proof.
  intros H. induction l as [|y r IH]; simpl; [done|]. by rewrite H, IH.
Qed.

Lemma sort_ext {A} (gt gt' : A -> A -> bool) l :
  (forall a b, gt a b = gt' a b) -> sort gt l = sort gt' l.
Proof.
  intros H. induction l as [|x r IH]; simpl; [done|].
  rewrite IH. by apply insert_sorted_ext.
Qed.

Lemma StronglySorted_weaken {A} (R R' : A -> A -> Prop) l :
  (forall a b, R a b -> R' a b) -> StronglySorted R l -> StronglySorted R' l.
Proof.
  intros H. induction 1 as [|x r Hr IH Hx]; constructor; [done|].
  eapply Forall_impl; [exact Hx|]. intros b. apply H.
Qed.

Lemma sortStrings_sorted l :
  StronglySorted (fun a b => ltb b a = false) (sortStrings l).
Proof.
  unfold sortStrings.
  rewrite (sort_ext _ (fun a b => (0 <? compareCodeUnits a b)%Z)).
  - eapply StronglySorted_weaken;
      [|apply (sort_sorted compareCodeUnits);
        [apply compareCodeUnits_antisym|apply compareCodeUnits_trans]].
    intros a b. by rewrite compareCodeUnits_le.
  - intros a b. unfold compareCodeUnits. destruct (ltb a b) eqn:Hab.
    + by rewrite (ltb_asym _ _ Hab).
    + by destruct (ltb b a).
Qed.

(** A sorted list of strings without duplicates ascends strictly. *)
Lemma sortStrings_ascending l i j a b :
  NoDup l -> (i < j)%nat ->
  sortStrings l !! i = Some a -> sortStrings l !! j = Some b ->
  ltb a b = true.
Proof.
  intros Hnd Hij Hi Hj.
  pose proof (StronglySorted_precedes _ _ (sortStrings_sorted l) i j a b Hij Hi Hj)
    as Hle. simpl in Hle.
  destruct (ltb a b) eqn:Hab; [done|]. exfalso.
  assert (a = b) as -> by (by apply ltb_total).
  assert (Hnd' : NoDup (sortStrings l)) by (by rewrite sortStrings_perm).
  pose proof (NoDup_lookup _ _ _ _ Hnd' Hi Hj). lia.
Qed.

(** *** What the normalisation keeps *)

Lemma indexOf_first a x : x ∈ a -> exists k, indexOf a x = Some k /\ a !! k = Some x.
Proof.
  induction a as [|y r IH]; [by intros ?%elem_of_nil|].
  simpl. destruct (String.eqb_spec y x) as [->|Hne].
  - intros _. by exists 0%nat.
  - intros [?|Hin]%elem_of_cons; [congruence|].
    destruct (IH Hin) as (k & -> & Hk). by exists (S k).
Qed.

Lemma filter_first_from_keeps a : forall l i j x,
  l !! j = Some x -> indexOf a x = Some (i + j)%nat ->
  x ∈ filter_first_from a i l.
Proof.
  induction l as [|d r IH]; intros i j x Hj Hidx; [done|].
  destruct j as [|j]; simpl in *.
  - injection Hj as ->. rewrite Nat.add_0_r in Hidx.
    rewrite decide_True by done. left.
  - assert (x ∈ filter_first_from a (S i) r).
    { apply (IH _ j); [done|]. rewrite Hidx. f_equal. lia. }
    destruct (decide (indexOf a d = Some i)); [by right|done].
Qed.

Lemma dedupe_keeps a x : x ∈ a -> x ∈ dedupe a.
Proof.
  intros (k & Hidx & Hk)%indexOf_first.
  by apply (filter_first_from_keeps a a 0 k).
Qed.

Lemma nonBlankStrings_elem items x :
  x ∈ nonBlankStrings items <-> JStr x ∈ items /\ trim x <> "".
Proof.
  unfold nonBlankStrings. rewrite list_elem_of_In, in_flat_map. split.
  - intros (v & Hv & Hx). apply list_elem_of_In in Hv.
    destruct v as [| | |d| |]; try done.
    destruct (isEmpty (trim d)) eqn:He; [done|].
    destruct Hx as [->|[]]. split; [done|]. intros E. by rewrite E in He.
  - intros [Hin Hne]. exists (JStr x). split; [by apply list_elem_of_In|].
    simpl. rewrite GeneratorExtras.nonempty_not_isEmpty by done. by left.
Qed.

(** X14: the keywords of an entry are the trimmed, lowercased forms of
    the strings of the source list that are not blank, nothing more and
    nothing less; a source that is no list gives none. *)
Theorem normalizeKeywords_elem v k :
  k ∈ normalizeKeywords v <->
  exists items x,
    v = Some (JArr items) /\ JStr x ∈ items /\ trim x <> "" /\
    k = toLowerCase (trim x).
Proof.
  destruct v as [[| | | |items|]|]; simpl;
    try (split; [by intros ?%elem_of_nil|by intros (? & ? & ? & _)]).
  rewrite sortStrings_perm. split.
  - intros H%dedupe_elem. apply elem_of_map in H as (x & -> & Hx).
    apply nonBlankStrings_elem in Hx as [? ?]. by exists items, x.
  - intros (? & x & [= <-] & Hin & Hne & ->). apply dedupe_keeps, elem_of_map.
    exists x. split; [done|]. by apply nonBlankStrings_elem.
Qed.

(** X15: the domains of an entry are the trimmed, lowercased forms,
    with one leading [www.] cut, of the strings of the source list that
    are not blank, nothing more and nothing less; a source that is no
    list gives none. *)
Theorem normalizeDomains_elem_iff v d :
  d ∈ normalizeDomains v <->
  exists items x,
    v = Some (JArr items) /\ JStr x ∈ items /\ trim x <> "" /\
    d = stripWww (toLowerCase (trim x)).
Proof.
  destruct v as [[| | | |items|]|]; simpl;
    try (split; [by intros ?%elem_of_nil|by intros (? & ? & ? & _)]).
  rewrite sortStrings_perm. split.
  - intros H%dedupe_elem. apply elem_of_map in H as (y & -> & Hy).
    apply elem_of_map in Hy as (x & -> & Hx).
    apply nonBlankStrings_elem in Hx as [? ?]. by exists items, x.
  - intros (? & x & [= <-] & Hin & Hne & ->). apply dedupe_keeps, elem_of_map.
    eexists. split; [done|]. apply elem_of_map.
    exists x. split; [done|]. by apply nonBlankStrings_elem.
Qed.

Section BuildExtras.
Variable JSON_parse : string -> option json.
Variable localeCompare : string -> string -> Z.
Variable now : string.

Lemma project_lists p fs e :
  project JSON_parse p fs = Ok e ->
  (exists v, keywords e = normalizeKeywords v) /\
  (domains e = [] \/ exists v, domains e = normalizeDomains v).
Proof.
  intros (meta & _ & [H|H])%project_inv.
  - apply bundleEntry_Ok in H as (_ & _ & -> & ->). split; [by eexists|by left].
  - apply toIndexEntry_Ok in H as (_ & _ & -> & ->).
    split; [by eexists|right; by eexists].
Qed.

Lemma project_metaPath p fs e :
  project JSON_parse p fs = Ok e ->
  metaPath e = replaceAll "092"%char "/"%char (render p).
Proof.
  intros (meta & _ & [H|H])%project_inv; revert H.
  - unfold bundleEntry. repeat case_match; try done; by intros [= <-].
  - unfold toIndexEntry. repeat case_match; try done; by intros [= <-].
Qed.

(** X16: in every entry of the index the builder computes, the keywords
    and the domains ascend strictly in the order of code units. *)
Theorem entries_lists_ascending fs entries e :
  build JSON_parse localeCompare fs = Ok entries -> e ∈ entries ->
  (forall i j a b, (i < j)%nat ->
     keywords e !! i = Some a -> keywords e !! j = Some b -> ltb a b = true) /\
  (forall i j a b, (i < j)%nat ->
     domains e !! i = Some a -> domains e !! j = Some b -> ltb a b = true).
Proof.
  intros Hb He. destruct (build_entry _ _ _ _ _ Hb He) as [p Hp].
  destruct (project_lists _ _ _ Hp) as [[v Hk] Hd]. split.
  - rewrite Hk. destruct v as [[| | | |items|]|]; simpl; try done.
    intros i j a b. apply sortStrings_ascending, dedupe_NoDup.
  - destruct Hd as [->|[w ->]]; [done|].
    destruct w as [[| | | |items|]|]; simpl; try done.
    intros i j a b. apply sortStrings_ascending, dedupe_NoDup.
Qed.

(** The loop keeps the ids of the collected entries apart, and all of
    them among the seen ids. *)
Lemma collect_ids files : forall acc fs acc',
  collect JSON_parse files acc fs = Ok acc' ->
  NoDup (map id acc.1) -> (forall e, e ∈ acc.1 -> id e ∈ acc.2) ->
  NoDup (map id acc'.1) /\ (forall e, e ∈ acc'.1 -> id e ∈ acc'.2).
Proof.
  induction files as [|p r IH]; intros acc fs acc'; simpl.
  - by intros [= <-].
  - destruct (visit JSON_parse acc p fs) as [acc1|] eqn:Hv; [|done]. simpl.
    apply visit_Ok in Hv as (e0 & _ & Hnew & ->). intros Hc Hnd Hseen.
    apply (IH _ _ _ Hc); simpl.
    + rewrite map_app. simpl. apply NoDup_app. split; [done|].
      split; [|apply NoDup_singleton].
      intros x Hx ->%list_elem_of_singleton.
      apply elem_of_map in Hx as (e1 & Heq & He1). apply Hnew.
      rewrite Heq. by apply Hseen.
    + intros e [Hin| ->%list_elem_of_singleton]%elem_of_app.
      * apply elem_of_union_r. by apply Hseen.
      * apply elem_of_union_l. by apply elem_of_singleton.
Qed.

(** X17: the entries of the index the builder computes have ids that
    differ from one another. *)
Theorem entries_ids_unique fs entries :
  build JSON_parse localeCompare fs = Ok entries -> NoDup (map id entries).
Proof.
  intros (files & acc & _ & Hc & ->)%build_Ok.
  apply collect_ids in Hc as [Hnd _]; [|constructor|by intros ? ?%elem_of_nil].
  eapply NoDup_Permutation_proper; [|exact Hnd].
  apply Permutation_map, sortEntries_perm.
Qed.

Lemma collect_Forall2 files : forall acc fs acc',
  collect JSON_parse files acc fs = Ok acc' ->
  exists es, acc'.1 = acc.1 ++ es /\
             Forall2 (fun p e => project JSON_parse p fs = Ok e) files es.
Proof.
  induction files as [|p r IH]; intros acc fs acc'; simpl.
  - intros [= <-]. exists []. by rewrite app_nil_r.
  - destruct (visit JSON_parse acc p fs) as [acc1|] eqn:Hv; [|done]. simpl.
    apply visit_Ok in Hv as (e0 & Hp & _ & ->).
    intros (es & -> & Hes)%IH. exists (e0 :: es). simpl.
    split; [by rewrite <- app_assoc|by constructor].
Qed.

(** X18: the index the builder computes has one entry for every scanned
    file and no other: its entries are, in another order, the entries
    the scanned files give one by one. *)
Theorem entries_of_files fs entries :
  build JSON_parse localeCompare fs = Ok entries ->
  exists files es,
    discover fs = Ok files /\
    Forall2 (fun p e => project JSON_parse p fs = Ok e) files es /\
    entries ≡ₚ es /\
    length entries = length files.
Proof.
  intros (files & acc & Hd & Hc & ->)%build_Ok.
  apply collect_Forall2 in Hc as (es & Hes & HF). simpl in Hes.
  exists files, es. split; [done|]. split; [done|].
  assert (Hperm : sortEntries localeCompare acc.1 ≡ₚ es)
    by (by rewrite sortEntries_perm, Hes).
  split; [done|]. rewrite Hperm. symmetry. by eapply Forall2_length.
Qed.

Lemma collect_failure files : forall acc fs p e,
  p ∈ files -> project JSON_parse p fs = Throw e ->
  exists err, collect JSON_parse files acc fs = Throw err.
Proof.
  induction files as [|q r IH]; intros acc fs p e; [by intros ?%elem_of_nil|].
  simpl. intros Hin Hp.
  destruct (visit JSON_parse acc q fs) as [acc1|] eqn:Hv; [|by eexists].
  simpl. apply elem_of_cons in Hin as [->|Hin]; [|by eapply IH].
  apply visit_Ok in Hv as (e0 & He0 & _). congruence.
Qed.

(** X19: one scanned file that gives no entry (it cannot be read or
    parsed, or a field it needs is missing) makes the whole run end in
    an error, with the file system as it was. *)
Theorem malformed_file_aborts fs files p e :
  discover fs = Ok files -> p ∈ files ->
  project JSON_parse p fs = Throw e ->
  exists err, main JSON_parse localeCompare now fs = (Throw err, fs).
Proof.
  intros Hd Hin Hp.
  destruct (collect_failure files ([], ∅) fs p e Hin Hp) as [err Herr].
  unfold main, build. rewrite Hd.
  destruct (negb _ && negb _); [by eexists|].
  simpl. rewrite Herr. simpl. by eexists.
Qed.

(** X20: a run of the builder that ends well has written the text of
    the computed entries to [index.json] and left every other entry of
    the root as it was; a run that fails has changed nothing. *)
Theorem main_effect fs r fs' :
  main JSON_parse localeCompare now fs = (r, fs') ->
  match r with
  | Ok _ =>
      exists entries,
        build JSON_parse localeCompare fs = Ok entries /\
        readFileSync ["index.json"] fs' = Ok (indexText now entries) /\
        forall s, s <> "index.json" -> Fs.entry s fs' = Fs.entry s fs
  | Throw _ => fs' = fs
  end.
Proof.
  unfold main.
  destruct (build JSON_parse localeCompare fs) as [entries|]; [|by intros [= <- <-]].
  destruct (writeFileSync ["index.json"] _ fs) as [fs1|] eqn:Hw;
    intros [= <- <-]; [|done].
  apply writeFileSync_root in Hw as ->. exists entries. split; [done|].
  split; [apply readFileSync_root_written|].
  intros s Hs. apply entry_setEntry_ne. congruence.
Qed.

(** X21: every entry of the index the builder computes has one of the
    five categories, and a path without backslash. *)
Theorem entries_category_path fs entries e :
  build JSON_parse localeCompare fs = Ok entries -> e ∈ entries ->
  category e ∈ categories /\
  includes (metaPath e) (String "092"%char "") = false.
Proof.
  intros Hb He. destruct (build_entry _ _ _ _ _ Hb He) as [p Hp].
  split; [by apply project_normalized in Hp as [_ ?]|].
  rewrite (project_metaPath _ _ _ Hp). by apply replaceAll_gone.
Qed.
End BuildExtras.

Lemma entries_lists_ascending_witness : ltb "a.org" "b.org" = true.
Proof.
  apply (proj2 (entries_lists_ascending (parseOnly [orgDoc]) compareCodeUnits
                  orgTree [orgEntry] orgEntry
                  ltac:(vm_compute; reflexivity) ltac:(left)) 0 1)%nat;
    [lia|reflexivity..].
Defined.

Lemma entries_ids_unique_witness :
  NoDup ["votesite:a"; "votesite:b"].
Proof.
  apply (entries_ids_unique
           (parseOnly [presetDoc "votesite:b" "B" []; presetDoc "votesite:a" "A" []])
           compareCodeUnits twoTree
           (match build (parseOnly [presetDoc "votesite:b" "B" [];
                                    presetDoc "votesite:a" "A" []])
                    compareCodeUnits twoTree with
            | Ok es => es | Throw _ => [] end)).
  vm_compute. reflexivity.
Defined.

Lemma entries_of_files_witness :
  exists entries files,
    build (parseOnly [presetDoc "votesite:b" "B" []; presetDoc "votesite:a" "A" []])
      compareCodeUnits twoTree = Ok entries /\
    discover twoTree = Ok files /\ length entries = length files.
Proof.
  destruct (build _ compareCodeUnits twoTree) as [entries|] eqn:Hb;
    [|by vm_compute in Hb].
  destruct (entries_of_files _ _ _ _ Hb) as (files & es & Hd & _ & _ & Hl).
  by exists entries, files.
Defined.

Lemma malformed_file_aborts_witness :
  exists err,
    main (parseOnly [namelessBundle]) compareCodeUnits
      "2026-01-01T00:00:00.000Z" bundleTree = (Throw err, bundleTree).
Proof.
  apply (malformed_file_aborts (parseOnly [namelessBundle]) compareCodeUnits
           "2026-01-01T00:00:00.000Z" bundleTree
           [["bundles"; "starter.bundle.json"]]
           ["bundles"; "starter.bundle.json"]
           (Error "Bundle missing id/display.name: bundles/starter.bundle.json")).
  - vm_compute. reflexivity.
  - left.
  - vm_compute. reflexivity.
Defined.

Lemma main_effect_witness :
  (main (parseOnly [namelessBundle]) compareCodeUnits
     "2026-01-01T00:00:00.000Z" bundleTree).2 = bundleTree.
Proof.
  apply (main_effect (parseOnly [namelessBundle]) compareCodeUnits
           "2026-01-01T00:00:00.000Z" bundleTree
           (Throw (Error "Bundle missing id/display.name: bundles/starter.bundle.json"))).
  vm_compute. reflexivity.
Defined.

Lemma entries_category_path_witness :
  category orgEntry ∈ categories /\
  includes (metaPath orgEntry) (String "092"%char "") = false.
Proof.
  apply (entries_category_path (parseOnly [orgDoc]) compareCodeUnits
           orgTree [orgEntry] orgEntry).
  - vm_compute. reflexivity.
  - left.
Defined.

Lemma normalizeKeywords_elem_witness :
  "foo" ∈ normalizeKeywords (Some (JArr [JStr "Foo"; JStr " foo"; JNull])).
Proof.
  apply normalizeKeywords_elem. exists [JStr "Foo"; JStr " foo"; JNull], "Foo".
  repeat split; [left|discriminate].
Defined.

Lemma normalizeDomains_elem_iff_witness :
  "example.com"
  ∈ normalizeDomains (Some (JArr [JStr "WWW.Example.com "; JStr "example.com"])).
Proof.
  apply normalizeDomains_elem_iff.
  exists [JStr "WWW.Example.com "; JStr "example.com"], "WWW.Example.com ".
  repeat split; [left|discriminate].
Defined.

(** *** The scan *)

Lemma walk_Dir m full name sub :
  walk m full name (Dir sub) = findFilesIn m full sub.
Proof.
  unfold findFilesIn. induction sub as [|[nm child] r IH]; [done|].
  simpl in *. by rewrite IH.
Qed.

Lemma resolves_nonempty q es c : resolves q es c -> q <> [].
Proof. by destruct 1. Qed.

Lemma resolves_mono q es es' c :
  (forall x, x ∈ es -> x ∈ es') -> resolves q es c -> resolves q es' c.
Proof.
  intros Hsub. destruct 1.
  - apply resolves_file. by apply Hsub.
  - eapply resolves_dir; [by apply Hsub|done].
Qed.

Lemma last_cons_nonempty {A} (x : A) l d : l <> [] -> List.last (x :: l) d = List.last l d.
Proof. by destruct l. Qed.

(** What the scan finds is a file of the tree whose name the test takes. *)
Lemma walk_sound m : forall n full name p,
  p ∈ walk m full name n ->
  match n with
  | File c => p = full /\ m name = true
  | Dir sub =>
      exists q c, p = full ++ q /\ resolves q sub c /\ m (List.last q "") = true
  end.
Proof.
  fix IH 1. intros [c|sub] full name p.
  - simpl. destruct (m name); [|by intros ?%elem_of_nil].
    by intros ->%list_elem_of_singleton.
  - induction sub as [|[nm child] r IHr]; [by intros ?%elem_of_nil|].
    intros [H|H]%elem_of_app.
    + pose proof (IH child _ _ _ H) as Hc. destruct child as [c|s].
      * destruct Hc as [-> Hm]. exists [nm], c. split; [done|].
        split; [apply resolves_file; left|done].
      * destruct Hc as (q & c & -> & Hq & Hm). exists (nm :: q), c.
        split; [by rewrite <- app_assoc|]. split.
        -- eapply resolves_dir; [left|done].
        -- rewrite last_cons_nonempty; [done|by eapply resolves_nonempty].
    + destruct (IHr H) as (q & c & -> & Hq & Hm). exists q, c.
      split; [done|]. split; [|done].
      eapply resolves_mono; [|done]. intros x Hx. by right.
Qed.

Lemma findFilesIn_sound m dir es p :
  p ∈ findFilesIn m dir es ->
  exists q c, p = dir ++ q /\ resolves q es c /\ m (List.last q "") = true.
Proof. rewrite <- (walk_Dir m dir ""). apply (walk_sound m (Dir es)). Qed.

(** Every file of the tree whose name the test takes is found. *)
Lemma findFilesIn_complete m q es c :
  resolves q es c -> forall dir,
  m (List.last q "") = true -> dir ++ q ∈ findFilesIn m dir es.
Proof.
  induction 1 as [k c es Hin|k sub es q c Hin Hq IH]; intros dir Hm.
  - unfold findFilesIn. apply list_elem_of_In, in_flat_map.
    exists (k, File c). split; [by apply list_elem_of_In|].
    simpl in *. rewrite Hm. by left.
  - unfold findFilesIn. apply list_elem_of_In, in_flat_map.
    exists (k, Dir sub). split; [by apply list_elem_of_In|].
    apply list_elem_of_In. cbn [fst snd]. rewrite walk_Dir.
    rewrite (app_assoc dir [k] q : dir ++ k :: q = (dir ++ [k]) ++ q).
    apply IH. rewrite last_cons_nonempty in Hm; [done|by eapply resolves_nonempty].
Qed.

Lemma entry_Some_member k es n : Fs.entry k es = Some n -> (k, n) ∈ es.
Proof.
  induction es as [|[k' v] r IH]; simpl; [done|].
  destruct (String.eqb_spec k' k) as [->|_].
  - intros [= ->]. left.
  - intros H. right. by apply IH.
Qed.

Lemma entry_member k es n :
  NoDup (map fst es) -> (k, n) ∈ es -> Fs.entry k es = Some n.
Proof.
  induction es as [|[k' v] r IH]; simpl; [by intros _ ?%elem_of_nil|].
  intros [Hk Hr]%NoDup_cons [[= -> ->]|Hin]%elem_of_cons.
  - by rewrite String.eqb_refl.
  - destruct (String.eqb_spec k' k) as [->|_]; [|by apply IH].
    destruct Hk. apply elem_of_map. by exists (k, n).
Qed.

Lemma wellFormed_child es k n :
  wellFormed (Dir es) -> (k, n) ∈ es -> wellFormed n.
Proof.
  intros [_ Hall]. induction es as [|[k' v] r IH]; [by intros ?%elem_of_nil|].
  destruct Hall as [Hv Hr]. intros [[= -> ->]|Hin]%elem_of_cons; [done|].
  by apply IH.
Qed.

Lemma lookup_resolves q : forall es c,
  lookup q es = Some (File c) -> resolves q es c.
Proof.
  induction q as [|k q IH]; intros es c; simpl; [done|].
  destruct q as [|k' q'].
  - intros H%entry_Some_member. by apply resolves_file.
  - destruct (Fs.entry k es) as [[?|sub]|] eqn:He; try done.
    intros H. eapply resolves_dir; [by apply entry_Some_member|by apply IH].
Qed.

Lemma resolves_lookup q es c :
  resolves q es c -> wellFormed (Dir es) -> lookup q es = Some (File c).
Proof.
  induction 1 as [k c es Hin|k sub es q c Hin Hq IH]; intros Hwf.
  - simpl. apply entry_member; [apply Hwf|done].
  - rewrite (GeneratorExtras.lookup_cons_Dir k q es sub).
    + apply IH. by eapply wellFormed_child.
    + by eapply resolves_nonempty.
    + apply entry_member; [apply Hwf|done].
Qed.

Lemma findFiles_iff m root fs files p :
  wellFormed (Dir fs) ->
  findFiles [root] m fs = Ok files ->
  p ∈ files <->
  exists q c, p = root :: q /\ lookup p fs = Some (File c) /\
              m (basename p) = true.
Proof.
  intros Hwf. unfold findFiles. simpl.
  destruct (Fs.entry root fs) as [[c0|es]|] eqn:He; try done.
  intros [= <-]. split.
  - intros (q & c & -> & Hq & Hm)%findFilesIn_sound. exists q, c.
    split; [done|]. split.
    + apply resolves_lookup; [|done].
      eapply resolves_dir; [by apply entry_Some_member|done].
    + unfold basename. simpl ([root] ++ q).
      rewrite last_cons_nonempty; [done|by eapply resolves_nonempty].
  - intros (q & c & -> & Hl & Hm).
    destruct q as [|k q']. { simpl in Hl. congruence. }
    rewrite (GeneratorExtras.lookup_cons_Dir root _ fs es) in Hl by done.
    change (root :: k :: q') with ([root] ++ k :: q').
    apply (findFilesIn_complete m (k :: q') es c); [by apply lookup_resolves|].
    unfold basename in Hm. by rewrite last_cons_nonempty in Hm.
Qed.

(** X22: on a tree whose directories name their entries apart, the scan
    gives exactly the files below [presets] whose name ends in
    [.meta.json] and the files below [bundles] whose name ends in
    [.bundle.json]; each of them can be read. *)
Theorem discover_exact fs files p :
  wellFormed (Dir fs) -> discover fs = Ok files ->
  p ∈ files <->
  exists q c,
    lookup p fs = Some (File c) /\
    ((p = "presets" :: q /\ endsWith (basename p) ".meta.json" = true) \/
     (p = "bundles" :: q /\ endsWith (basename p) ".bundle.json" = true)).
Proof.
  intros Hwf. unfold discover.
  set (mm := fun n => endsWith n ".meta.json").
  set (mb := fun n => endsWith n ".bundle.json").
  destruct (exists_ ["presets"] fs) eqn:Hep.
  - destruct (findFiles ["presets"] mm fs) as [ms|] eqn:Hm; [|done]. simpl.
    destruct (exists_ ["bundles"] fs) eqn:Heb.
    + destruct (findFiles ["bundles"] mb fs) as [bs|] eqn:Hb; [|done]. simpl.
      intros [= <-]. rewrite elem_of_app.
      rewrite (findFiles_iff mm "presets" fs ms p Hwf Hm).
      rewrite (findFiles_iff mb "bundles" fs bs p Hwf Hb). naive_solver.
    + simpl. intros [= <-]. rewrite app_nil_r.
      rewrite (findFiles_iff mm "presets" fs ms p Hwf Hm). split; [naive_solver|].
      intros (q & c & Hl & [[-> H]|[-> H]]); [naive_solver|].
      unfold exists_ in Heb. simpl in *.
      destruct (Fs.entry "bundles" fs) as [[?|?]|]; [done..|]. by destruct q.
  - simpl. destruct (exists_ ["bundles"] fs) eqn:Heb.
    + destruct (findFiles ["bundles"] mb fs) as [bs|] eqn:Hb; [|done]. simpl.
      intros [= <-].
      rewrite (findFiles_iff mb "bundles" fs bs p Hwf Hb). split; [naive_solver|].
      intros (q & c & Hl & [[-> H]|[-> H]]); [|naive_solver].
      unfold exists_ in Hep. simpl in *.
      destruct (Fs.entry "presets" fs) as [[?|?]|]; [done..|]. by destruct q.
    + simpl. intros [= <-]. split; [by intros ?%elem_of_nil|].
      intros (q & c & Hl & [[-> H]|[-> H]]).
      * unfold exists_ in Hep. simpl in *.
        destruct (Fs.entry "presets" fs) as [[?|?]|]; [done..|]. by destruct q.
      * unfold exists_ in Heb. simpl in *.
        destruct (Fs.entry "bundles" fs) as [[?|?]|]; [done..|]. by destruct q.
Qed.

Lemma discover_exact_witness :
  ["presets"; "votesites"; "a.meta.json"]
  ∈ [["presets"; "votesites"; "b.meta.json"];
     ["presets"; "votesites"; "a.meta.json"]].
Proof.
  apply (discover_exact twoTree _ ["presets"; "votesites"; "a.meta.json"]).
  - vm_compute. repeat split; repeat constructor; set_solver.
  - vm_compute. reflexivity.
  - eexists _, _. split; [vm_compute; reflexivity|]. left. by split.
Defined.

End IndexExtras.


(** ** The entries and their sources *)

Module SourceFacts.
Import Js Json Fs IndexBuilder Statements JsFacts FsFacts IndexFacts
  OrderFacts IndexExtras.

(** The domains [normalizeDomains] gives, by the strings they come from. *)
Lemma normalizeDomains_members v d :
  d ∈ normalizeDomains v <->
  exists items x,
    v = Some (JArr items) /\ JStr x ∈ items /\ trim x <> "" /\
    d = stripWww (toLowerCase (trim x)).
Proof.
  destruct v as [[| | | |items|]|]; simpl;
    try (split; [by intros ?%elem_of_nil|by intros (? & ? & ? & _)]).
  rewrite sortStrings_perm. split.
  - intros H%dedupe_elem. apply elem_of_map in H as (y & -> & Hy).
    apply elem_of_map in Hy as (x & -> & Hx).
    apply nonBlankStrings_elem in Hx as [? ?]. by exists items, x.
  - intros (? & x & [= <-] & Hin & Hne & ->). apply dedupe_keeps, elem_of_map.
    eexists. split; [done|]. apply elem_of_map.
    exists x. split; [done|]. by apply nonBlankStrings_elem.
Qed.

Section Sources.
Variable JSON_parse : string -> option json.
Variable localeCompare : string -> string -> Z.

(** The branch of the loop a scanned file takes. *)
Lemma project_branch p fs e :
  project JSON_parse p fs = Ok e ->
  exists meta,
    readJson JSON_parse p fs = Ok meta /\
    if endsWith (render p) ".bundle.json"
    then bundleEntry meta (render p) = Ok e
    else toIndexEntry meta (render p) = Ok e.
Proof.
  unfold project. destruct (readJson JSON_parse p fs) as [meta|]; [|done].
  simpl. intros H. exists meta. split; [done|].
  by destruct (endsWith (render p) ".bundle.json").
Qed.

(** Every entry of the index is the entry of a scanned file. *)
Lemma build_entry_file fs entries e :
  build JSON_parse localeCompare fs = Ok entries -> e ∈ entries ->
  exists files p,
    discover fs = Ok files /\ p ∈ files /\ project JSON_parse p fs = Ok e.
Proof.
  intros (files & acc & Hd & Hc & ->)%build_Ok He.
  rewrite sortEntries_perm in He.
  destruct (collect_entries _ _ _ _ _ Hc e He) as [Hin|(p & Hp & Hpe)].
  - by apply elem_of_nil in Hin.
  - by exists files, p.
Qed.
End Sources.

(** *** A comparator of letters *)

Section Lexicographic.
Context {A : Type} (p q : A -> A -> Z).
Hypothesis p_antisym : forall a b, Z.sgn (p a b) = (- Z.sgn (p b a))%Z.
Hypothesis p_trans : forall a b c, (p a b <= 0 -> p b c <= 0 -> p a c <= 0)%Z.
Hypothesis q_antisym : forall a b, Z.sgn (q a b) = (- Z.sgn (q b a))%Z.
Hypothesis q_trans : forall a b c, (q a b <= 0 -> q b c <= 0 -> q a c <= 0)%Z.

Let lex (a b : A) : Z := if (p a b =? 0)%Z then q a b else p a b.

Lemma lex_antisym a b : Z.sgn (lex a b) = (- Z.sgn (lex b a))%Z.
Proof.
  unfold lex. pose proof (p_antisym a b). pose proof (q_antisym a b).
  destruct (Z.eqb_spec (p a b) 0); destruct (Z.eqb_spec (p b a) 0); lia.
Qed.

Lemma lex_trans a b c : (lex a b <= 0 -> lex b c <= 0 -> lex a c <= 0)%Z.
Proof.
  unfold lex.
  pose proof (p_antisym a b). pose proof (p_antisym b c).
  pose proof (p_antisym a c).
  pose proof (p_trans a b c). pose proof (p_trans b c a).
  pose proof (p_trans c a b). pose proof (q_trans a b c).
  destruct (Z.eqb_spec (p a b) 0); destruct (Z.eqb_spec (p b c) 0);
    destruct (Z.eqb_spec (p a c) 0); lia.
Qed.
End Lexicographic.

Lemma compareLetters_antisym a b :
  Z.sgn (compareLetters a b) = (- Z.sgn (compareLetters b a))%Z.
Proof.
  apply (lex_antisym (fun a b => compareCodeUnits (toLowerCase a) (toLowerCase b))
                     (fun a b => compareCodeUnits b a)).
  - intros. apply compareCodeUnits_antisym.
  - intros. apply compareCodeUnits_antisym.
Qed.

Lemma compareLetters_trans a b c :
  (compareLetters a b <= 0 -> compareLetters b c <= 0 ->
   compareLetters a c <= 0)%Z.
Proof.
  apply (lex_trans (fun a b => compareCodeUnits (toLowerCase a) (toLowerCase b))
                   (fun a b => compareCodeUnits b a)).
  - intros. apply compareCodeUnits_antisym.
  - intros ? ? ?. apply compareCodeUnits_trans.
  - intros x y z H1 H2. by apply (compareCodeUnits_trans z y x).
Qed.

Lemma compareLetters_categories a b :
  a ∈ categories -> b ∈ categories -> compareLetters a b = 0%Z -> a = b.
Proof.
  unfold categories. rewrite !elem_of_cons, !elem_of_nil.
  intros Ha Hb; destruct_or!; subst; try done; vm_compute; discriminate.
Qed.

End SourceFacts.

Module SourceClaims.
Import Js Json Fs IndexBuilder Statements JsFacts FsFacts IndexFacts
  OrderFacts IndexExtras SourceFacts.

(** C4, amended: every entry of the index the builder computes is the
    entry of a scanned document, and its domains have no duplicates and
    are exactly the values that the strings of the [match.domains] of
    that document that are not blank give when they are trimmed,
    lowercased and rid of one leading [www.] (none for a bundle); so
    each of them equals its own lowercased form and has no whitespace
    at its end, though it can itself start with [www.] or with
    whitespace.  The keywords have no duplicates and each of them
    equals its own trimmed, lowercased form. *)
Theorem entries_normalized JSON_parse localeCompare fs entries e :
  build JSON_parse localeCompare fs = Ok entries ->
  e ∈ entries ->
  exists files p meta,
    discover fs = Ok files /\ p ∈ files /\
    readJson JSON_parse p fs = Ok meta /\
    project JSON_parse p fs = Ok e /\
    NoDup (domains e) /\
    (forall d, d ∈ domains e <->
       endsWith (render p) ".bundle.json" = false /\
       exists items x,
         get (get (Some meta) "match") "domains" = Some (JArr items) /\
         JStr x ∈ items /\ trim x <> "" /\
         d = stripWww (toLowerCase (trim x))) /\
    (forall d, d ∈ domains e -> toLowerCase d = d /\ trimEnd d = d) /\
    NoDup (keywords e) /\
    (forall k, k ∈ keywords e -> toLowerCase (trim k) = k).
Proof.
  intros Hb He.
  destruct (build_entry_file _ _ _ _ _ Hb He) as (files & p & Hd & Hp & Hpe).
  destruct (project_branch _ _ _ _ Hpe) as (meta & Hm & Hbr).
  destruct (project_normalized _ _ _ _ Hpe) as [(Hnd & Hfix & Hnk & Hk) _].
  exists files, p, meta. repeat (split; [done|]).
  split; [|split; [|done]].
  - intros d. destruct (endsWith (render p) ".bundle.json").
    + apply bundleEntry_Ok in Hbr as (_ & _ & -> & _).
      split; [by intros ?%elem_of_nil|by intros [? _]].
    + apply toIndexEntry_Ok in Hbr as (_ & _ & -> & _).
      rewrite normalizeDomains_members. naive_solver.
  - intros d Hin. by destruct (Hfix d Hin) as (? & ? & _).
Qed.

Lemma entries_normalized_witness :
  exists files p meta,
    discover wwwTree = Ok files /\ p ∈ files /\
    readJson (parseOnly [presetDoc "votesite:a" "A" ["www.www.a.com"]]) p wwwTree
      = Ok meta /\
    project (parseOnly [presetDoc "votesite:a" "A" ["www.www.a.com"]]) p wwwTree
      = Ok wwwEntry /\
    NoDup (domains wwwEntry) /\
    (forall d, d ∈ domains wwwEntry <->
       endsWith (render p) ".bundle.json" = false /\
       exists items x,
         get (get (Some meta) "match") "domains" = Some (JArr items) /\
         JStr x ∈ items /\ trim x <> "" /\
         d = stripWww (toLowerCase (trim x))) /\
    (forall d, d ∈ domains wwwEntry -> toLowerCase d = d /\ trimEnd d = d) /\
    NoDup (keywords wwwEntry) /\
    (forall k, k ∈ keywords wwwEntry -> toLowerCase (trim k) = k).
Proof.
  apply (entries_normalized
           (parseOnly [presetDoc "votesite:a" "A" ["www.www.a.com"]])
           compareCodeUnits wwwTree [wwwEntry] wwwEntry).
  - vm_compute. reflexivity.
  - left.
Defined.

(** C6, as stated, fails: with a comparator that orders letters as
    [localeCompare] does, the entry with the id [votesite:a] precedes
    the entry with the id [votesite:B] of the same category, though in
    the lexicographic order of the code units [votesite:B] is the
    smaller id. *)
Lemma code_unit_order_counterexample :
  exists A B,
    build (parseOnly caseDocs) compareLetters caseTree = Ok [A; B] /\
    id A = "votesite:a" /\ id B = "votesite:B" /\
    category A = category B /\
    ltb (category A) (category B) = false /\
    ltb (id B) (id A) = true.
Proof. eexists _, _. vm_compute. by repeat split. Qed.

Lemma entries_sorted_witness :
  exists A B,
    build (parseOnly caseDocs) compareLetters caseTree = Ok [A; B] /\
    id A = "votesite:a" /\ id B = "votesite:B" /\
    ((compareLetters (category A) (category B) < 0)%Z \/
     (category A = category B /\ (compareLetters (id A) (id B) <= 0)%Z)).
Proof.
  eexists _, _. split; [vm_compute; reflexivity|]. split; [reflexivity|].
  split; [reflexivity|].
  eapply (IndexClaims.entries_sorted (parseOnly caseDocs) compareLetters
            compareLetters_antisym compareLetters_trans
            compareLetters_categories caseTree _ 0 1).
  - vm_compute. reflexivity.
  - lia.
  - reflexivity.
  - reflexivity.
Defined.

End SourceClaims.
